(** * Phisherman: URL analysis service and its browser front end

  The development has two parts.

  - [Api], [UseHistory], [UseAnalyze], [Rendering] and [Home] embed the
    TypeScript front end (types/api.ts, hooks/useHistory.ts,
    hooks/useAnalyze.ts, components/SearchResults.tsx,
    components/History.tsx, components/HistoryItem.tsx and the page
    component [Home]).
  - [Pipeline] holds the analysis pipeline (orchestrator, scorer, verdict
    cache, request surface).  The Python package that implements it is not
    part of the sources at hand, so every definition there is modelled
    from the written specification and says so.

  JavaScript numbers that travel through JSON are finite doubles; they are
  embedded as rationals [Q], on which the comparisons of the source
  ([>=], [<]) are exact. *)

From Stdlib Require Import QArith Lqa.
Close Scope Q_scope.
From stdpp Require Import gmap strings list.

(* ===================================================================== *)
(** ** types/api.ts *)
(* ===================================================================== *)

Module Api.

(** [interface AnalyzerResult]. [evidence] is [Record<string, unknown>]:
    the values are opaque to the front end and kept as their JSON text. *)
Record AnalyzerResult := mkAnalyzerResult {
  ar_name : string;
  ar_score : Q;
  ar_confidence : Q;
  ar_labels : list string;
  ar_evidence : gmap string string;
  ar_execution_time_ms : Q;
  ar_error : option string
}.

(** [interface AnalysisResponse]; [analysis_id?] and [version?] are
    optional members. *)
Record AnalysisResponse := mkAnalysisResponse {
  url : string;
  malicious : bool;
  score : Q;
  confidence : Q;
  labels : list string;
  evidence : gmap string string;
  analyzers : list AnalyzerResult;
  analysis_id : option string;
  timestamp : string;
  processing_time_ms : Q;
  cached : bool;
  version : option string
}.

(** [interface ApiError { error: { code; message; type } }]. *)
Record ApiError := mkApiError {
  err_code : Z;
  err_message : string;
  err_type : string
}.

(** [interface HistoryEntry]. *)
Record HistoryEntry := mkHistoryEntry {
  he_id : string;
  he_url : string;
  he_score : Q;
  he_malicious : bool;
  he_timestamp : string;
  he_labels : list string
}.

End Api.

(* ===================================================================== *)
(** ** hooks/useHistory.ts *)
(* ===================================================================== *)

Module UseHistory.
Import Api.

Definition MAX_HISTORY_ITEMS : nat := 20.

(** The hook owns the React state [history] and the [localStorage] item
    stored under [HISTORY_KEY]; the JSON text of the item is kept as the
    list it serialises, [None] when the item is absent. *)
Record HookState := mkHookState {
  history : list HistoryEntry;
  stored : option (list HistoryEntry)
}.

(** [saveHistory]: [localStorage.setItem] inside [try]/[catch]. When the
    call throws ([ok = false]) the error is logged and the item keeps its
    old value. *)
Definition saveHistory (ok : bool) (entries : list HistoryEntry)
    (item : option (list HistoryEntry)) : option (list HistoryEntry) :=
  if ok then Some entries else item.

(** The effect run on mount: read the item, parse it, [setHistory(parsed)].
    [parsed] is what [JSON.parse] yields, [None] when it throws. *)
Definition loadHistory (parsed : option (list HistoryEntry)) (st : HookState)
    : HookState :=
  match stored st with
  | Some _ =>
      match parsed with
      | Some entries => mkHookState entries (stored st)
      | None => mkHookState [] (stored st)
      end
  | None => st
  end.

(** [response.analysis_id || crypto.randomUUID()]: the left operand is
    falsy when it is [undefined] or the empty string; [uuid] is the value
    the random generator would return. *)
Definition entryId (response : AnalysisResponse) (uuid : string) : string :=
  match analysis_id response with
  | Some i => if decide (i = "") then uuid else i
  | None => uuid
  end.

Definition newEntry (response : AnalysisResponse) (uuid : string)
    : HistoryEntry :=
  {| he_id := entryId response uuid;
     he_url := url response;
     he_score := score response;
     he_malicious := malicious response;
     he_timestamp := timestamp response;
     he_labels := take 3 (labels response) |}.

(** The updater passed to [setHistory] by [addEntry]. *)
Definition addUpdate (e : HistoryEntry) (prev : list HistoryEntry)
    : list HistoryEntry :=
  let filtered := filter (λ entry, he_url entry ≠ he_url e) prev in
  take MAX_HISTORY_ITEMS (e :: filtered).

Definition addEntry (ok : bool) (uuid : string) (response : AnalysisResponse)
    (st : HookState) : HookState :=
  let updated := addUpdate (newEntry response uuid) (history st) in
  mkHookState updated (saveHistory ok updated (stored st)).

(** The updater passed to [setHistory] by [removeEntry]. *)
Definition removeUpdate (id : string) (prev : list HistoryEntry)
    : list HistoryEntry :=
  filter (λ entry, he_id entry ≠ id) prev.

Definition removeEntry (ok : bool) (id : string) (st : HookState)
    : HookState :=
  let updated := removeUpdate id (history st) in
  mkHookState updated (saveHistory ok updated (stored st)).

(** [clearHistory]: [setHistory([])], then [localStorage.removeItem] under
    [try]/[catch]. *)
Definition clearHistory (ok : bool) (st : HookState) : HookState :=
  mkHookState [] (if ok then None else stored st).

(** The invariant of the history list: bounded, one entry per URL. *)
Definition history_inv (h : list HistoryEntry) : Prop :=
  length h ≤ MAX_HISTORY_ITEMS ∧ NoDup (he_url <$> h).

End UseHistory.

(* ===================================================================== *)
(** ** hooks/useAnalyze.ts *)
(* ===================================================================== *)

Module UseAnalyze.
Import Api.

(** The state of the hook. [data] is [None] for [null] and for any other
    falsy value a response body may leave there: the readers of [data]
    ([if (!data)] in SearchResults, [if (data && ...)] in the page) only
    test whether it is truthy. *)
Record UseAnalyzeState := mkUseAnalyzeState {
  data : option AnalysisResponse;
  loading : bool;
  error : option string
}.

Definition initialState : UseAnalyzeState :=
  mkUseAnalyzeState None false None.

(** What the [try] block of [analyze] can meet after the request is sent:
    - [Fulfilled]: [response.ok], and the body is a truthy JSON value,
      which the source takes as an [AnalysisResponse] without checking it,
      and so does the model;
    - [FulfilledEmpty]: [response.ok], and the body is a falsy JSON value
      ([null], [false], [0] or the empty string);
    - [Rejected]: [!response.ok], and the body has an [error] member, read
      as an [ApiError];
    - [Thrown]: something was thrown inside the block: [fetch] or [json()]
      rejected, or [errorData.error.message] raised a [TypeError] because
      a body that is not ok has no [error] member; [Some m] when the thrown
      value is an [Error] with message [m]. *)
Inductive FetchOutcome :=
| Fulfilled (body : AnalysisResponse)
| FulfilledEmpty
| Rejected (body : ApiError)
| Thrown (msg : option string).

Definition FALLBACK_MESSAGE : string := "Error en el análisis".
Definition UNKNOWN_MESSAGE : string := "Error desconocido".

(** [errorData.error.message || FALLBACK_MESSAGE]. *)
Definition surfacedMessage (e : ApiError) : string :=
  if decide (err_message e = "") then FALLBACK_MESSAGE else err_message e.

(** First [setState] of [analyze]. *)
Definition analyzeStart : UseAnalyzeState :=
  mkUseAnalyzeState None true None.

(** The [setState] that ends [analyze]: the one of the [try] block, or the
    one of the [catch] block, which also receives the [Error] thrown for a
    response that is not ok. *)
Definition analyzeSettle (o : FetchOutcome) : UseAnalyzeState :=
  match o with
  | Fulfilled body => mkUseAnalyzeState (Some body) false None
  | FulfilledEmpty => mkUseAnalyzeState None false None
  | Rejected e => mkUseAnalyzeState None false (Some (surfacedMessage e))
  | Thrown (Some m) => mkUseAnalyzeState None false (Some m)
  | Thrown None => mkUseAnalyzeState None false (Some UNKNOWN_MESSAGE)
  end.

End UseAnalyze.

(* ===================================================================== *)
(** ** components/SearchResults.tsx, HistoryItem.tsx, History.tsx *)
(* ===================================================================== *)

Module Rendering.
Import Api.

Inductive ScoreColor := Red | Yellow | Green | Blue.

(** [getScoreColor] of SearchResults.tsx; [getScoreIcon] branches alike. *)
Definition getScoreColor (s : Q) : ScoreColor :=
  if Qle_bool 70 s then Red
  else if Qle_bool 40 s then Yellow
  else if Qle_bool 0 s then Green
  else Blue.

(** [getScoreColor] of HistoryItem.tsx: no class for negative scores. *)
Definition itemScoreColor (s : Q) : ScoreColor :=
  if Qle_bool 70 s then Red
  else if Qle_bool 40 s then Yellow
  else Green.

(** The three counters of the statistics line of History.tsx. *)
Definition highCount (entries : list HistoryEntry) : nat :=
  length (filter (λ e, Qle_bool 70 (he_score e) = true) entries).
Definition mediumCount (entries : list HistoryEntry) : nat :=
  length (filter (λ e, Qle_bool 40 (he_score e) = true
                       ∧ Qle_bool 70 (he_score e) = false) entries).
Definition safeCount (entries : list HistoryEntry) : nat :=
  length (filter (λ e, Qle_bool 40 (he_score e) = false) entries).



(** The headline of the result card. *)
Definition headline (d : AnalysisResponse) : string :=
  if malicious d then "URL Maliciosa" else "URL Segura".

End Rendering.

(* ===================================================================== *)
(** ** The page component [Home] *)
(* ===================================================================== *)

Module Home.
Import Api UseHistory UseAnalyze.

Record HomeState := mkHomeState {
  hasSearched : bool;
  analysis : UseAnalyzeState;
  hist : HookState
}.

Definition initialHome : HomeState :=
  mkHomeState false initialState (mkHookState [] None).

(** The effect with dependencies [[data, addEntry]]:
    [if (data && !data.cached) addEntry(data)]. *)
Definition recordEffect (ok : bool) (uuid : string)
    (d : option AnalysisResponse) (h : HookState) : HookState :=
  match d with
  | Some body => if cached body then h else addEntry ok uuid body h
  | None => h
  end.

(** What can happen to a mounted page: [Submit] is [handleSearch] up to
    the request, [Settle] the end of the request of [analyze], [Remove] is
    [onRemove] and [Clear] is [onClear].  [ok] tells whether the
    [localStorage] call of the event succeeds, [uuid] is the value
    [crypto.randomUUID()] would give. *)
Inductive Event :=
| Submit
| Settle (o : FetchOutcome) (uuid : string) (ok : bool)
| Remove (id : string) (ok : bool)
| Clear (ok : bool).

(** [data] changes on [Submit] and [Settle] only, so the effect runs after
    those two; [addEntry] is stable ([useCallback]). *)
Definition step (ev : Event) (st : HomeState) : HomeState :=
  match ev with
  | Submit =>
      mkHomeState true analyzeStart
        (recordEffect true "" (data analyzeStart) (hist st))
  | Settle o uuid ok =>
      let a := analyzeSettle o in
      mkHomeState (hasSearched st) a (recordEffect ok uuid (data a) (hist st))
  | Remove id ok =>
      mkHomeState (hasSearched st) (analysis st) (removeEntry ok id (hist st))
  | Clear ok =>
      mkHomeState (hasSearched st) (analysis st) (clearHistory ok (hist st))
  end.

Definition run (evs : list Event) (st : HomeState) : HomeState :=
  foldl (λ s ev, step ev s) st evs.

End Home.

(* ===================================================================== *)
(** ** The analysis pipeline *)
(* ===================================================================== *)

(** The service behind [POST /api/v1/analyze] (orchestrator, analyzers,
  scorer, verdict cache, indicator store) is a Python package whose files
  are not among the sources.  This module models it from the written
  specification, reusing the wire types of [Api] for the specification's
  AnalyzerResult and AnalysisResult. *)

Module Pipeline.
Import Api.

(** *** Data model *)

(** Modelled from the spec: the indicator types of the data model (URL,
    domain, IP, hash); the indicator model is missing. *)
Inductive IndicatorType := IndUrl | IndDomain | IndIp | IndHash.

(** Modelled from the spec: the severity of an indicator, with the four
    values DATABASE-SCHEMA.md lists for the [indicators] table; the
    indicator model is missing. *)
Inductive Severity := SevLow | SevMedium | SevHigh | SevCritical.

(** Modelled from the spec: the Indicator of the data model (type, value,
    threat type, severity, source feed); the Indicator Store itself is
    missing and is kept as the list of its rows. *)
Record Indicator := mkIndicator {
  ind_type : IndicatorType;
  ind_value : string;
  ind_threat_type : string;
  ind_severity : Severity;
  ind_source : string
}.

(** Modelled from the spec: the cache entry (Verdict) of the data model,
    with the [is_malicious] column the [verdicts] table adds; the cache
    module is missing.  Times are seconds. *)
Record Verdict := mkVerdict {
  v_fingerprint : string;
  v_malicious : bool;
  v_score : Q;
  v_confidence : Q;
  v_labels : list string;
  v_created : Z;
  v_expires : Z;
  v_hits : nat
}.

(** Modelled from the spec: what one analyzer invocation can do, seen from
    the orchestrator (the analyzer classes are missing): return a result,
    raise, return malformed output, each after [elapsed] milliseconds, or
    not come back at all. *)
Inductive Outcome :=
| Returned (elapsed : Q) (r : AnalyzerResult)
| Raised (elapsed : Q) (msg : string)
| Malformed (elapsed : Q)
| Hung.

(** Modelled from the spec: a scoring weight, the float of the weight
    mapping (4.3, 6). The weights the documentation configures (README.md:
    0.9, 0.8, 0.7, 0.6, 0.4; the notes on the enhanced analyzers: 0.75,
    0.85) are positive fractions, and no document shows a negative one: a
    weight is a fraction that is not negative. The weights file and its
    loader are missing. *)
Record Weight := mkWeight {
  w_num : N;
  w_den : positive
}.

Definition weightValue (w : Weight) : Q := Z.of_N (w_num w) # w_den w.

(** Modelled from the spec: the analyzer capability ([name], [weight],
    [analyze(url)]) together with its registration data (enabled flag,
    timeout in milliseconds); the analyzer protocol is missing. *)
Record Analyzer := mkAnalyzer {
  a_name : string;
  a_weight : Weight;
  a_timeout : Q;
  a_enabled : bool;
  a_analyze : string → Outcome
}.

(** Modelled from the spec: the risk level, one of the three buckets
    low, medium and high (4.3, 8); the scorer is missing. *)
Inductive RiskLevel := Low | Medium | High.

(** Modelled from the spec: the configuration surface of the scorer, a
    weight per analyzer name and the threshold triple, with the neutral
    threshold and the bonus of the consensus adjustment; the score is
    nudged further in the direction of the agreement, so the bonus is
    never negative. The weights file and its loader are missing. *)
Record ScorerConfig := mkScorerConfig {
  sc_weights : gmap string Weight;
  sc_low : Q;
  sc_medium : Q;
  sc_high : Q;
  sc_neutral : Q;
  sc_bonus : Q;
  sc_bonus_nonneg : (0 <= sc_bonus)%Q
}.

(** Modelled from the spec: the parts of the feed-lookup policy the
    specification names without fixing them (which sources are trusted,
    the score and confidence of a dominating hit, the label that carries
    the hit to the scorer); the blacklist analyzer is missing. *)
Record FeedPolicy := mkFeedPolicy {
  fp_analyzer : string;
  fp_trusted : list string;
  fp_hit_label : string;
  fp_hit_score : Q;
  fp_hit_confidence : Q;
  fp_match_score : Q
}.

(** Modelled from the spec: the status of a client error caused by the
    request body (6, 7), one of the two HTTP codes in use for it; the
    request surface is missing. *)
Inductive ClientStatus := BadRequest | UnprocessableEntity.

Definition statusCode (s : ClientStatus) : Z :=
  match s with
  | BadRequest => 400
  | UnprocessableEntity => 422
  end.

(** Modelled from the spec: the two ways a submitted URL fails (7 a), it
    cannot be parsed as a URL, or it parses and is not acceptable; the
    validation code is missing. *)
Inductive InputErrorKind := UnparseableUrl | InvalidUrl.

(** Modelled from the spec: what validation and normalisation make of a
    submitted string (4.1, 6): the normal form of a valid URL, or a
    refusal. A refusal carries its kind and, as [detail], what the failing
    parser or validator reported internally, the raw exception text and
    stack trace of 7; the validation code is missing. *)
Inductive Validation :=
| Accepted (u : string)
| Refused (kind : InputErrorKind) (detail : string).

(** Modelled from the spec: collaborators the specification leaves at
    their boundary (URL validation and normalisation; the hash that keys
    the cache; the host of a normalised URL; the confidence formula and the
    threshold-derived labels of the scorer; the status of the client error
    the request surface answers to an invalid URL, and the coarse message
    and type it has for each kind of input error); all of them are
    missing. *)
Record Env := mkEnv {
  validate : string → Validation;
  fingerprint : string → string;
  domain_of : string → string;
  confidence_of : list AnalyzerResult → Q;
  derived_labels : RiskLevel → list string;
  invalid_url_status : ClientStatus;
  invalid_url_message : InputErrorKind → string;
  invalid_url_type : InputErrorKind → string
}.

(** The normal form of a submitted URL, [None] for an invalid one. *)
Definition normalize (E : Env) (raw : string) : option string :=
  match validate E raw with
  | Accepted u => Some u
  | Refused _ _ => None
  end.

(** Modelled from the spec: what the environment stamps on one response,
    the analysis identifier, the timestamp and the processing time of the
    data model; the request surface is missing. *)
Record Stamp := mkStamp {
  st_analysis_id : string;
  st_timestamp : string;
  st_elapsed_ms : Q
}.

(** *** Orchestrator *)

(** Modelled from the spec: the AnalyzerResult recorded for an analyzer
    that failed, score 0, confidence 0, error populated (4.1); the
    orchestrator is missing. *)
Definition errorResult (name : string) (elapsed : Q) (msg : string)
    : AnalyzerResult :=
  mkAnalyzerResult name 0 0 [] ∅ elapsed (Some msg).

(** Modelled from the spec: one analyzer invocation under its own timeout
    (4.1); anything that is not a result delivered in time becomes an
    error result. The orchestrator is missing. *)
Definition guarded (a : Analyzer) (u : string) : AnalyzerResult :=
  match a_analyze a u with
  | Returned t r =>
      if Qle_bool t (a_timeout a) then r
      else errorResult (a_name a) (a_timeout a) "timeout"
  | Raised t msg =>
      if Qle_bool t (a_timeout a) then errorResult (a_name a) t msg
      else errorResult (a_name a) (a_timeout a) "timeout"
  | Malformed t =>
      if Qle_bool t (a_timeout a)
      then errorResult (a_name a) t "malformed output"
      else errorResult (a_name a) (a_timeout a) "timeout"
  | Hung => errorResult (a_name a) (a_timeout a) "timeout"
  end.

(** Modelled from the spec: the analyzers the orchestrator fans out to
    are the enabled ones (4.1); the orchestrator is missing. *)
Definition enabled (registry : list Analyzer) : list Analyzer :=
  filter (λ a, a_enabled a = true) registry.

(** Modelled from the spec: the fan-out and full fan-in of the
    orchestrator (4.1), every enabled analyzer invoked on the normalised
    URL; the orchestrator is missing. *)
Definition collect (registry : list Analyzer) (u : string)
    : list AnalyzerResult :=
  (λ a, guarded a u) <$> enabled registry.


(** *** Scorer *)

(** Modelled from the spec: results that are errors take no part in the
    weighted sum nor in the consensus (4.3); the scorer is missing. *)
Definition usable (rs : list AnalyzerResult) : list AnalyzerResult :=
  filter (λ r, ar_error r = None) rs.

(** Modelled from the spec: the weight in force for a result is the
    configured one (4.3); the scorer is missing. An analyzer the
    configuration does not list weighs nothing until [withDefaults] has
    supplied its own default. *)
Definition weightOf (cfg : ScorerConfig) (r : AnalyzerResult) : Q :=
  from_option weightValue 0%Q (sc_weights cfg !! ar_name r).

(** Modelled from the spec: an analyzer's own weight is the default, a
    configured weight overrides it (4.2); the scorer is missing. *)
Definition withDefaults (registry : list Analyzer) (cfg : ScorerConfig)
    : ScorerConfig :=
  mkScorerConfig
    (sc_weights cfg ∪ list_to_map ((λ a, (a_name a, a_weight a)) <$> registry))
    (sc_low cfg) (sc_medium cfg) (sc_high cfg) (sc_neutral cfg) (sc_bonus cfg)
    (sc_bonus_nonneg cfg).

(** Modelled from the spec: the weighted sum over the results that are not
    errors (4.3); the scorer is missing. *)
Definition weightedSum (cfg : ScorerConfig) (rs : list AnalyzerResult) : Q :=
  foldr (λ r acc, (weightOf cfg r * ar_score r + acc)%Q) 0%Q (usable rs).

(** Modelled from the spec: the direction of one result, strictly above
    or strictly below the neutral threshold (4.3); the scorer is
    missing. *)
Definition above (cfg : ScorerConfig) (r : AnalyzerResult) : bool :=
  negb (Qle_bool (ar_score r) (sc_neutral cfg)).
Definition below (cfg : ScorerConfig) (r : AnalyzerResult) : bool :=
  negb (Qle_bool (sc_neutral cfg) (ar_score r)).

(** Modelled from the spec: how many results that are not errors point
    in each direction (4.3); the scorer is missing. *)
Definition countAbove (cfg : ScorerConfig) (rs : list AnalyzerResult) : nat :=
  length (filter (λ r, above cfg r = true) (usable rs)).
Definition countBelow (cfg : ScorerConfig) (rs : list AnalyzerResult) : nat :=
  length (filter (λ r, below cfg r = true) (usable rs)).

(** Modelled from the spec: the consensus adjustment (4.3), a bonus in
    the direction on which more than half of the results that are not
    errors agree; the scorer is missing. *)
Definition consensus (cfg : ScorerConfig) (rs : list AnalyzerResult) : Q :=
  let n := length (usable rs) in
  if decide (n < 2 * countAbove cfg rs) then sc_bonus cfg
  else if decide (n < 2 * countBelow cfg rs) then (- sc_bonus cfg)%Q
  else 0%Q.

(** Modelled from the spec: the aggregate score, weighted sum then
    consensus adjustment (4.3); the scorer is missing. *)
Definition aggregate (cfg : ScorerConfig) (rs : list AnalyzerResult) : Q :=
  (weightedSum cfg rs + consensus cfg rs)%Q.

(** Modelled from the spec: bucketing of the final score against the
    threshold triple (4.3): high at or above the high threshold, medium at
    or above the medium threshold, and low for every other score. The
    specification has no bucket under low (the benign example of 8 is in
    the low bucket), so the low threshold splits nothing. The thresholds
    are taken as they are configured: the expected results of
    QUICK_START_ENHANCED.md (68.50 medium, 72.30 high) need a high
    threshold between the two, which the sample file of the README (25, 50,
    75) does not have. The scorer is missing. *)
Definition riskLevel (cfg : ScorerConfig) (s : Q) : RiskLevel :=
  if Qle_bool (sc_high cfg) s then High
  else if Qle_bool (sc_medium cfg) s then Medium
  else Low.

(** Modelled from the spec: the feed-lookup short-circuit (4.2, 4.3), read
    off the result of the feed-lookup analyzer; the scorer is missing. *)
Definition feedShortCircuit (p : FeedPolicy) (rs : list AnalyzerResult)
    : bool :=
  bool_decide (Exists (λ r, ar_name r = fp_analyzer p ∧ ar_error r = None ∧
                            fp_hit_label p ∈ ar_labels r) rs).

(** Modelled from the spec: [malicious] is true at or above the medium
    threshold, and the feed-lookup short-circuit overrides it (4.3); the
    scorer is missing. *)
Definition isMalicious (cfg : ScorerConfig) (p : FeedPolicy)
    (rs : list AnalyzerResult) (s : Q) : bool :=
  feedShortCircuit p rs || Qle_bool (sc_medium cfg) s.

(** Modelled from the spec: the union of the labels of all results
    (4.3); the scorer is missing. *)
Definition unionLabels (rs : list AnalyzerResult) : list string :=
  remove_dups (concat (ar_labels <$> rs)).

(** The version string of the README's sample response. *)
Definition VERSION : string := "0.1.0".

(** Modelled from the spec: what [score(results)] returns (4.3), with the
    [malicious] flag derived next to the risk level; the scorer is
    missing. *)
Record Scored := mkScored {
  sd_score : Q;
  sd_confidence : Q;
  sd_labels : list string;
  sd_riskLevel : RiskLevel;
  sd_malicious : bool
}.

(** Modelled from the spec: [score(results)] (4.3): aggregate score,
    confidence, labels with the threshold-derived ones, risk level and
    [malicious] flag; the scorer is missing. *)
Definition scoreResults (E : Env) (cfg : ScorerConfig) (p : FeedPolicy)
    (rs : list AnalyzerResult) : Scored :=
  let s := aggregate cfg rs in
  {| sd_score := s;
     sd_confidence := confidence_of E rs;
     sd_labels := unionLabels rs ++ derived_labels E (riskLevel cfg s);
     sd_riskLevel := riskLevel cfg s;
     sd_malicious := isMalicious cfg p rs s |}.

(** Modelled from the spec: one pipeline execution, orchestrator then
    scorer, on a URL that passed validation (4.1, 4.3); both modules are
    missing. [raw] is the URL as submitted, [u] its normal form. *)
Definition analyse (E : Env) (cfg : ScorerConfig) (p : FeedPolicy)
    (registry : list Analyzer) (stamp : Stamp) (raw u : string)
    : AnalysisResponse :=
  let rs := collect registry u in
  let sd := scoreResults E (withDefaults registry cfg) p rs in
  {| url := raw;
     malicious := sd_malicious sd;
     score := sd_score sd;
     confidence := sd_confidence sd;
     labels := sd_labels sd;
     evidence := ⋃ (ar_evidence <$> rs);
     analyzers := rs;
     analysis_id := Some (st_analysis_id stamp);
     timestamp := st_timestamp stamp;
     processing_time_ms := st_elapsed_ms stamp;
     cached := false;
     version := Some VERSION |}.

(** *** Feed-lookup analyzer *)

(** Modelled from the spec: substring match, of which exact match is a
    case (4.2); the blacklist analyzer is missing. *)
Fixpoint isSubstring (needle hay : string) : bool :=
  String.prefix needle hay ||
  match hay with
  | EmptyString => false
  | String _ rest => isSubstring needle rest
  end.

(** Modelled from the spec: the lookup of the feed-lookup analyzer, exact
    or substring match on the host and on the full URL (4.2); the
    blacklist analyzer and the store are missing. *)
Definition lookup (E : Env) (store : list Indicator) (u : string)
    : list Indicator :=
  filter (λ i, isSubstring (ind_value i) (domain_of E u) = true ∨
               isSubstring (ind_value i) u = true) store.

(** Modelled from the spec: a high-severity indicator is one rated high
    or critical (4.2); the blacklist analyzer is missing. *)
Definition highSeverity (s : Severity) : bool :=
  match s with
  | SevHigh | SevCritical => true
  | SevLow | SevMedium => false
  end.

(** Modelled from the spec: the indicators that dominate the verdict,
    high severity from a trusted source (4.2); the blacklist analyzer is
    missing. *)
Definition dominating (p : FeedPolicy) (i : Indicator) : bool :=
  highSeverity (ind_severity i) && bool_decide (ind_source i ∈ fp_trusted p).

(** Modelled from the spec: the verdict of the feed-lookup analyzer, a
    high-severity indicator of a trusted source dominates (4.2); the
    blacklist analyzer is missing. *)
Definition feedResult (E : Env) (p : FeedPolicy) (store : list Indicator)
    (elapsed : Q) (u : string) : AnalyzerResult :=
  let hits := lookup E store u in
  if existsb (dominating p) hits then
    mkAnalyzerResult (fp_analyzer p) (fp_hit_score p) (fp_hit_confidence p)
      [fp_hit_label p] ∅ elapsed None
  else if bool_decide (hits = []) then
    mkAnalyzerResult (fp_analyzer p) 0 (fp_hit_confidence p) [] ∅ elapsed None
  else
    mkAnalyzerResult (fp_analyzer p) (fp_match_score p) (fp_hit_confidence p)
      [] ∅ elapsed None.

(** Modelled from the spec: the feed-lookup variant of the analyzer
    capability, answering after [elapsed] milliseconds (4.2); the blacklist
    analyzer is missing. *)
Definition feedAnalyzer (E : Env) (p : FeedPolicy) (store : list Indicator)
    (weight : Weight) (timeout elapsed : Q) : Analyzer :=
  mkAnalyzer (fp_analyzer p) weight timeout true
    (λ u, Returned elapsed (feedResult E p store elapsed u)).


(** *** Verdict cache and request surface *)

(** Modelled from the spec: the default TTL of 24 hours, in seconds
    (4.4); the cache module is missing. *)
Definition DEFAULT_TTL : Z := 86400.

(** Modelled from the spec: one deployment of the service, the
    collaborators, the scorer configuration, the feed policy, the
    registered analyzers and the cache TTL in seconds; the application
    wiring is missing. *)
Record Service := mkService {
  sv_env : Env;
  sv_config : ScorerConfig;
  sv_policy : FeedPolicy;
  sv_registry : list Analyzer;
  sv_ttl : Z
}.

(** Modelled from the spec: what the request surface answers, a client
    error or an AnalysisResult (6); the request surface is missing. *)
Inductive Reply :=
| Failure (e : ApiError)
| Success (r : AnalysisResponse).

(** Modelled from the spec: the only error the caller is shown, the input
    error, as a client error with the coarse message and type the
    deployment has for its kind (6, 7); the [detail] of the refusal takes
    no part in it. The request surface is missing. The body has the shape
    of [ApiError]. *)
Definition inputError (E : Env) (kind : InputErrorKind) : ApiError :=
  mkApiError (statusCode (invalid_url_status E)) (invalid_url_message E kind)
    (invalid_url_type E kind).

(** Modelled from the spec: one entry of the in-flight registry of the
    design note on single-flight, the URL the computation was started for
    and the callers that wait for it, oldest first; the cache module is
    missing. *)
Record Flight := mkFlight {
  fl_url : string;
  fl_normalized : string;
  fl_waiters : list nat
}.

(** Modelled from the spec: the shared state of the verdict cache, the
    stored verdicts and the per-key registry of computations in flight
    (4.4 and the design note on single-flight), with two logs to observe
    it: the keys for which a pipeline execution was started and the
    replies handed to callers, newest first. [storeUp] tells whether the
    persistence surface behind the verdicts can be reached (6, 7 e); the
    registry is memory of the process and is always there. The cache
    module is missing. *)
Record CacheState := mkCacheState {
  verdicts : gmap string Verdict;
  inflight : gmap string Flight;
  executions : list string;
  delivered : list (nat * Reply);
  storeUp : bool
}.

(** The cache of a service that just started. *)
Definition emptyCache : CacheState := mkCacheState ∅ ∅ [] [] true.

(** Modelled from the spec: expiry is checked lazily at lookup time, an
    expired entry is a miss (4.4); the cache module is missing. *)
Definition lookupVerdict (now : Z) (key : string)
    (vs : gmap string Verdict) : option Verdict :=
  match vs !! key with
  | Some v => if bool_decide (now < v_expires v)%Z then Some v else None
  | None => None
  end.

(** Modelled from the spec: a verdict is mutated only to count a hit
    (3); the cache module is missing. *)
Definition hit (v : Verdict) : Verdict :=
  mkVerdict (v_fingerprint v) (v_malicious v) (v_score v) (v_confidence v)
    (v_labels v) (v_created v) (v_expires v) (S (v_hits v)).

(** Modelled from the spec: the answer to a cache hit, the stored score,
    confidence and labels with [cached = true] and no per-analyzer detail
    (4.4); the cache module is missing. *)
Definition cachedResponse (raw : string) (stamp : Stamp) (v : Verdict)
    : AnalysisResponse :=
  {| url := raw;
     malicious := v_malicious v;
     score := v_score v;
     confidence := v_confidence v;
     labels := v_labels v;
     evidence := ∅;
     analyzers := [];
     analysis_id := Some (st_analysis_id stamp);
     timestamp := st_timestamp stamp;
     processing_time_ms := st_elapsed_ms stamp;
     cached := true;
     version := Some VERSION |}.

(** Modelled from the spec: the verdict created after a pipeline run,
    the score, confidence and labels of the result with creation and expiry
    times and a hit counter at zero (3, 4.4); the cache module is
    missing. *)
Definition toVerdict (key : string) (now ttl : Z) (r : AnalysisResponse)
    : Verdict :=
  mkVerdict key (malicious r) (score r) (confidence r) (labels r)
    now (now + ttl)%Z 0.

(** Modelled from the spec: the atomic steps of the cache under
    concurrent load (4.4, 5): a request arrives, or the pipeline execution
    in flight for a key completes; the registry is only touched under its
    lock, so each step is indivisible. The third step is the environment's:
    the store of the verdicts becomes unreachable or reachable again (7 e).
    The cache module is missing. *)
Inductive CacheEvent :=
| Arrive (caller : nat) (raw : string) (stamp : Stamp) (now : Z)
| Finish (key : string) (stamp : Stamp) (now : Z)
| Outage (up : bool).

(** Modelled from the spec: the read of the cache fails open (7 e): a
    store that cannot be reached answers like a miss, so that the request
    is computed and not failed; the cache module is missing. *)
Definition readVerdict (now : Z) (key : string) (st : CacheState)
    : option Verdict :=
  if storeUp st then lookupVerdict now key (verdicts st) else None.

(** Modelled from the spec: the write of the cache fails open (7 e): when
    the store cannot be reached the verdict is not stored, and the request
    goes on; the cache module is missing. *)
Definition writeVerdict (key : string) (v : Verdict) (st : CacheState)
    : gmap string Verdict :=
  if storeUp st then <[key := v]> (verdicts st) else verdicts st.

(** Modelled from the spec: [getOrCompute] up to its suspension point
    (3, 4.4, 6, 7): an invalid URL is refused before the pipeline, with the
    input error of its kind; a hit is answered at once and counted; a miss,
    or a store that cannot be read, joins the computation in flight for the
    key or, when there is none, registers one and starts the pipeline. The
    request surface and the cache module are missing. *)
Definition arrive (sv : Service) (caller : nat) (raw : string)
    (stamp : Stamp) (now : Z) (st : CacheState) : CacheState :=
  match validate (sv_env sv) raw with
  | Refused kind _ =>
      mkCacheState (verdicts st) (inflight st) (executions st)
        ((caller, Failure (inputError (sv_env sv) kind)) :: delivered st)
        (storeUp st)
  | Accepted u =>
      let key := fingerprint (sv_env sv) u in
      match readVerdict now key st with
      | Some v =>
          mkCacheState (<[key := hit v]> (verdicts st)) (inflight st)
            (executions st)
            ((caller, Success (cachedResponse raw stamp v)) :: delivered st)
            (storeUp st)
      | None =>
          match inflight st !! key with
          | Some fl =>
              mkCacheState (verdicts st)
                (<[key := mkFlight (fl_url fl) (fl_normalized fl)
                                   (fl_waiters fl ++ [caller])]> (inflight st))
                (executions st) (delivered st) (storeUp st)
          | None =>
              mkCacheState (verdicts st)
                (<[key := mkFlight raw u [caller]]> (inflight st))
                (key :: executions st) (delivered st) (storeUp st)
          end
      end
  end.

(** Modelled from the spec: the completion of the computation in flight
    for [key] (4.4, 7 e): the result is stored as a verdict when the store
    can be reached, handed to every waiting caller either way, and the
    registry entry is removed. The cache module is missing. *)
Definition finish (sv : Service) (key : string) (stamp : Stamp) (now : Z)
    (st : CacheState) : CacheState :=
  match inflight st !! key with
  | None => st
  | Some fl =>
      let r := analyse (sv_env sv) (sv_config sv) (sv_policy sv)
                 (sv_registry sv) stamp (fl_url fl) (fl_normalized fl) in
      mkCacheState (writeVerdict key (toVerdict key now (sv_ttl sv) r) st)
        (delete key (inflight st)) (executions st)
        (((λ c, (c, Success r)) <$> reverse (fl_waiters fl)) ++ delivered st)
        (storeUp st)
  end.

(** The store of the verdicts goes away or comes back; what it holds is
    kept. *)
Definition outage (up : bool) (st : CacheState) : CacheState :=
  mkCacheState (verdicts st) (inflight st) (executions st) (delivered st) up.

(** One step of the cache, and a whole interleaving of them. *)
Definition cacheStep (sv : Service) (ev : CacheEvent) (st : CacheState)
    : CacheState :=
  match ev with
  | Arrive caller raw stamp now => arrive sv caller raw stamp now st
  | Finish key stamp now => finish sv key stamp now st
  | Outage up => outage up st
  end.

Definition cacheRun (sv : Service) (evs : list CacheEvent) (st : CacheState)
    : CacheState :=
  foldl (λ s ev, cacheStep sv ev s) st evs.

(** The key an event works on, if any. *)
Definition eventKey (sv : Service) (ev : CacheEvent) : option string :=
  match ev with
  | Arrive _ raw _ _ => fingerprint (sv_env sv) <$> normalize (sv_env sv) raw
  | Finish key _ _ => Some key
  | Outage _ => None
  end.

(** How many pipeline executions were started for [key]. *)
Definition executionsFor (key : string) (st : CacheState) : nat :=
  length (filter (λ k, k = key) (executions st)).

(** How the front end sees a reply ([UseAnalyze.FetchOutcome]). *)
Definition toOutcome (r : Reply) : UseAnalyze.FetchOutcome :=
  match r with
  | Failure e => UseAnalyze.Rejected e
  | Success body => UseAnalyze.Fulfilled body
  end.

End Pipeline.

(* ===================================================================== *)
(** ** More of the front end: page load, item and result views *)
(* ===================================================================== *)

Module Views.
Import Api UseHistory UseAnalyze Rendering.
Import Stdlib.Strings.Ascii.

Global Instance ScoreColor_eq_dec : EqDecision ScoreColor.
Proof. solve_decision. Defined.

(** *** hooks/useHistory.ts: a page load *)

(** The hook of a page that has just been opened on a browser whose
    [localStorage] item is [item]: [useState([])], then the mount effect.
    The item was written by [JSON.stringify] on a list of entries, so
    [JSON.parse] gives that list back. *)
Definition pageLoad (item : option (list HistoryEntry)) : HookState :=
  loadHistory item (mkHookState [] item).

(** *** components/HistoryItem.tsx *)

Inductive ScoreIcon := Siren | Warning | Check | Shield.

(** [getScoreIcon] of HistoryItem.tsx. *)
Definition itemScoreIcon (s : Q) : ScoreIcon :=
  if Qle_bool 70 s then Siren
  else if Qle_bool 40 s then Warning
  else Check.

(** What [formatDate] prints: ['Ahora'], [`Hace ${n}m`], [`Hace ${n}h`],
    [`Hace ${n}d`] or [date.toLocaleDateString()]. *)
Inductive DateLabel :=
| Ahora
| HaceMinutos (n : Z)
| HaceHoras (n : Z)
| HaceDias (n : Z)
| FechaLocal.

(** [formatDate]. [date] is [new Date(timestamp).getTime()], [None] when
    the timestamp is not a date (the time value is NaN, every comparison
    below is false and the last [return] is reached); [now] is
    [new Date().getTime()]. Time values are integers; wherever a branch
    depends on it the quotient is small and [Math.floor(x / d)] is the
    floored quotient of the integers. *)
Definition formatDate (date : option Z) (now : Z) : DateLabel :=
  match date with
  | None => FechaLocal
  | Some t =>
      let diffMs := (now - t)%Z in
      let diffMins := (diffMs / 60000)%Z in
      let diffHours := (diffMs / 3600000)%Z in
      let diffDays := (diffMs / 86400000)%Z in
      if (diffMins <? 1)%Z then Ahora
      else if (diffMins <? 60)%Z then HaceMinutos diffMins
      else if (diffHours <? 24)%Z then HaceHoras diffHours
      else if (diffDays <? 7)%Z then HaceDias diffDays
      else FechaLocal
  end.

(** A JavaScript string as [length] and [substring] see it: the list of
    its UTF-16 code units. *)
Definition CodeUnits := list N.

(** The code units of a text written in ASCII. *)
Definition asciiUnits (s : string) : CodeUnits :=
  N_of_ascii <$> String.list_ascii_of_string s.

(** The code units of ['...']. *)
Definition DOTS : CodeUnits := [46; 46; 46]%N.

(** [truncateUrl(url, maxLength = 50)], on the code units of the URL:
    [url.length], [url.substring(0, maxLength)] and [+ '...']. *)
Definition truncateUrl (url : CodeUnits) (maxLength : nat) : CodeUnits :=
  if length url <=? maxLength then url
  else take maxLength url ++ DOTS.

Definition DEFAULT_MAX_LENGTH : nat := 50.

(** The labels preview of an item: absent without labels, else
    [entry.labels.slice(0, 2)]. *)
Definition labelsPreview (entry : HistoryEntry) : option (list string) :=
  match he_labels entry with
  | [] => None
  | ls => Some (take 2 ls)
  end.

(** *** components/SearchResults.tsx *)

(** [getScoreIcon] of SearchResults.tsx. *)
Definition getScoreIcon (s : Q) : ScoreIcon :=
  if Qle_bool 70 s then Siren
  else if Qle_bool 40 s then Warning
  else if Qle_bool 0 s then Check
  else Shield.

(** [analyzer.name.replace(/_/g, ' ')]. *)
Fixpoint displayName (name : string) : string :=
  match name with
  | EmptyString => EmptyString
  | String c rest =>
      String (if Ascii.eqb c "_" then " "%char else c) (displayName rest)
  end.

(** What the component returns: the spinner, the error box, nothing
    ([null]) or the result card. *)
Inductive View :=
| Spinner
| ErrorBox (msg : string)
| Blank
| ResultCard (d : AnalysisResponse).

(** The early returns of [SearchResults]: [if (loading)], [if (error)],
    [if (!data)]. The empty string is falsy. *)
Definition searchResultsView (st : UseAnalyzeState) : View :=
  if loading st then Spinner
  else match error st with
       | Some m =>
           if decide (m = "") then
             match data st with
             | Some d => ResultCard d
             | None => Blank
             end
           else ErrorBox m
       | None =>
           match data st with
           | Some d => ResultCard d
           | None => Blank
           end
       end.

(** *** components/History.tsx and the page *)

(** [History] returns [null] for an empty list, and the page renders it
    only while no request is running. *)
Definition historyVisible (st : Home.HomeState) : bool :=
  negb (loading (Home.analysis st)) &&
  negb (bool_decide (history (Home.hist st) = [])).

(** The results area of the page: rendered once a search was made. *)
Definition resultsArea (st : Home.HomeState) : option View :=
  if Home.hasSearched st then Some (searchResultsView (Home.analysis st))
  else None.

End Views.
(* ===================================================================== *)
(** ** Properties of the history store *)
(* ===================================================================== *)

Module UseHistoryFacts.
Import Api UseHistory.

Lemma fmap_filter_url_notin (u : string) (h : list HistoryEntry) :
  u ∉ he_url <$> filter (λ entry, he_url entry ≠ u) h.
Proof.
  intros Hin. apply list_elem_of_fmap in Hin as (e & -> & He).
  apply list_elem_of_filter in He as [Hne _]. by apply Hne.
Qed.

Lemma NoDup_fmap_filter {A B} (f : A → B) (P : A → Prop)
    `{∀ x, Decision (P x)} (l : list A) :
  NoDup (f <$> l) → NoDup (f <$> filter P l).
Proof.
  intros Hnd. eapply sublist_NoDup; [exact Hnd|].
  apply fmap_sublist, sublist_filter.
Qed.

Lemma NoDup_fmap_take {A B} (f : A → B) (n : nat) (l : list A) :
  NoDup (f <$> l) → NoDup (f <$> take n l).
Proof.
  intros Hnd. eapply sublist_NoDup; [exact Hnd|].
  apply fmap_sublist, sublist_take.
Qed.

Lemma addUpdate_inv e h : history_inv h → history_inv (addUpdate e h).
Proof.
  intros [_ Hnd]. split.
  - unfold addUpdate. rewrite length_take. lia.
  - unfold addUpdate. apply NoDup_fmap_take. rewrite fmap_cons.
    apply NoDup_cons. split.
    + apply fmap_filter_url_notin.
    + by apply NoDup_fmap_filter.
Qed.

Lemma addUpdate_head e h : head (addUpdate e h) = Some e.
Proof. reflexivity. Qed.

Lemma removeUpdate_inv id h : history_inv h → history_inv (removeUpdate id h).
Proof.
  intros [Hlen Hnd]. split.
  - unfold removeUpdate. pose proof (length_filter (λ entry, he_id entry ≠ id) h). lia.
  - by apply NoDup_fmap_filter.
Qed.

(** C8. Every operation of the history store keeps the history at no more
    than 20 entries with pairwise distinct URLs, and [addEntry] puts the
    new entry first. *)
Theorem history_ops_preserve_inv (ok : bool) (st : HookState) :
  history_inv (history st) →
  (∀ uuid response,
      history_inv (history (addEntry ok uuid response st)) ∧
      head (history (addEntry ok uuid response st))
        = Some (newEntry response uuid)) ∧
  (∀ id, history_inv (history (removeEntry ok id st))) ∧
  history_inv (history (clearHistory ok st)).
Proof.
  intros Hinv. split; [|split].
  - intros uuid response. split.
    + by apply addUpdate_inv.
    + apply addUpdate_head.
  - intros id. by apply removeUpdate_inv.
  - split; [simpl; lia | constructor].
Qed.



(** Witness of [history_ops_preserve_inv] on a history of two entries. *)
Definition sampleEntry (i u : string) : HistoryEntry :=
  mkHistoryEntry i u 0 false "2024-01-01T12:00:00Z" [].

Definition sampleState : HookState :=
  mkHookState [sampleEntry "a" "https://a.test"; sampleEntry "b" "https://b.test"]
              None.

Lemma sampleState_inv : history_inv (history sampleState).
Proof.
  split; [simpl; unfold MAX_HISTORY_ITEMS; lia|].
  simpl. apply NoDup_cons. split; [|apply NoDup_singleton].
  rewrite list_elem_of_singleton. discriminate.
Defined.

Lemma history_ops_preserve_inv_witness :
  history_inv (history sampleState) ∧
  ((∀ uuid response,
      history_inv (history (addEntry true uuid response sampleState)) ∧
      head (history (addEntry true uuid response sampleState))
        = Some (newEntry response uuid)) ∧
   (∀ id, history_inv (history (removeEntry true id sampleState))) ∧
   history_inv (history (clearHistory true sampleState))).
Proof.
  split; [exact sampleState_inv|].
  apply (history_ops_preserve_inv true sampleState). exact sampleState_inv.
Defined.

(** A full history stays full: the oldest entry falls off the end. *)
Lemma addUpdate_length e h :
  length (addUpdate e h) = min MAX_HISTORY_ITEMS (S (length
    (filter (λ entry, he_url entry ≠ he_url e) h))).
Proof. unfold addUpdate. by rewrite length_take. Qed.

Lemma filter_sublist_mono {A} (P : A → Prop) `{∀ x, Decision (P x)}
    (k l : list A) :
  k `sublist_of` l → filter P k `sublist_of` filter P l.
Proof.
  induction 1 as [|x k l _ IH|x k l _ IH]; [done| |].
  - rewrite !filter_cons. destruct (decide (P x)); [by constructor|done].
  - rewrite filter_cons. destruct (decide (P x)); [by constructor|done].
Qed.

Lemma filter_all {A} (P : A → Prop) `{∀ x, Decision (P x)} (k : list A) :
  Forall P k → filter P k = k.
Proof.
  induction 1 as [|x k Hx _ IH]; [done|].
  rewrite filter_cons. destruct (decide (P x)); [by f_equal|done].
Qed.

(** C10. [removeEntry id] drops the entries whose id is [id] and nothing
    else: what is left is a subsequence of the old history (same entries,
    same relative order), it holds exactly the old entries with another
    id, and it is the largest such subsequence. *)
Theorem removeEntry_exact (ok : bool) (id : string) (st : HookState) :
  history (removeEntry ok id st) `sublist_of` history st ∧
  (∀ e, e ∈ history (removeEntry ok id st) ↔ e ∈ history st ∧ he_id e ≠ id) ∧
  (∀ k, k `sublist_of` history st → Forall (λ e, he_id e ≠ id) k →
        k `sublist_of` history (removeEntry ok id st)).
Proof.
  simpl. unfold removeUpdate. split; [apply sublist_filter|split].
  - intros e. rewrite list_elem_of_filter. tauto.
  - intros k Hsub Hall.
    rewrite <- (filter_all (λ e, he_id e ≠ id) k Hall).
    by apply filter_sublist_mono.
Qed.

End UseHistoryFacts.

(* ===================================================================== *)
(** ** Properties of the page: what reaches the history *)
(* ===================================================================== *)

Module HomeFacts.
Import Api UseHistory UseAnalyze Home.

Lemma addUpdate_elem e x h : x ∈ addUpdate e h → x = e ∨ x ∈ h.
Proof.
  unfold addUpdate. intros Hin.
  assert (Hin' : x ∈ e :: filter (λ entry, he_url entry ≠ he_url e) h)
    by (eapply elem_of_sublist; [exact Hin|apply sublist_take]).
  apply elem_of_cons in Hin' as [->|Hin']; [by left|right].
  by apply list_elem_of_filter in Hin' as [_ ?].
Qed.

(** A response served from the cache leaves the history as it is. *)
Lemma cached_response_not_recorded body uuid ok st :
  cached body = true →
  hist (step (Settle (Fulfilled body) uuid ok) st) = hist st.
Proof. intros Hc. simpl. by rewrite Hc. Qed.

(** A failed request leaves the history as it is. *)
Lemma failed_request_not_recorded o uuid ok st :
  (∀ body, o ≠ Fulfilled body) →
  hist (step (Settle o uuid ok) st) = hist st.
Proof. intros Hne. destruct o as [body| | |[]]; [by destruct (Hne body)|done..]. Qed.

(** One step: an entry of the new history is an old one or the entry of a
    fresh (not cached) response that just arrived. *)
Lemma step_provenance ev st e :
  e ∈ history (hist (step ev st)) →
  e ∈ history (hist st) ∨
  ∃ body uuid ok, ev = Settle (Fulfilled body) uuid ok ∧
                  cached body = false ∧ e = newEntry body uuid.
Proof.
  destruct ev as [|o uuid ok|id ok|ok]; simpl.
  - by left.
  - destruct o as [body| |err|[m|]]; simpl; [|by left..].
    destruct (cached body) eqn:Hc; [by left|].
    simpl. intros [->|Hin]%addUpdate_elem; [right|by left].
    by exists body, uuid, ok.
  - unfold removeUpdate. rewrite list_elem_of_filter. intros [_ ?]. by left.
  - by intros ?%elem_of_nil.
Qed.

(** C9. Whatever happens on the page, an entry of the history either was
    there from the start or was built from a response with
    [cached = false]; a response with [cached = true] is never recorded. *)
Theorem history_holds_fresh_only (evs : list Event) (st : HomeState)
    (e : HistoryEntry) :
  e ∈ history (hist (run evs st)) →
  e ∈ history (hist st) ∨
  ∃ body uuid ok, Settle (Fulfilled body) uuid ok ∈ evs ∧
                  cached body = false ∧ e = newEntry body uuid.
Proof.
  revert st. induction evs as [|ev evs IH]; intros st; simpl.
  - by left.
  - intros Hin. destruct (IH _ Hin) as [Hold|(body & uuid & ok & Hev & Hc & ->)].
    + destruct (step_provenance _ _ _ Hold) as [?|(body & uuid & ok & -> & Hc & ->)];
        [by left|right].
      exists body, uuid, ok. split; [apply list_elem_of_here|done].
    + right. exists body, uuid, ok. split; [by apply list_elem_of_further|done].
Qed.

Definition sampleResponse (u : string) (c : bool) : AnalysisResponse :=
  mkAnalysisResponse u false 15.5 0.85 ["established_domain"] ∅ []
    (Some "550e8400") "2024-01-01T12:00:00Z" 245.6 c (Some "0.1.0").

Definition sampleSession : list Event :=
  [ Submit; Settle (Fulfilled (sampleResponse "https://example.com" false)) "u1" true;
    Submit; Settle (Fulfilled (sampleResponse "https://example.com" true)) "u2" true;
    Submit; Settle (Fulfilled (sampleResponse "https://other.test" true)) "u3" true ].

Example sampleSession_history :
  history (hist (run sampleSession initialHome))
  = [newEntry (sampleResponse "https://example.com" false) "u1"].
Proof. reflexivity. Qed.

Lemma history_holds_fresh_only_witness :
  newEntry (sampleResponse "https://example.com" false) "u1"
    ∈ history (hist (run sampleSession initialHome)) ∧
  (newEntry (sampleResponse "https://example.com" false) "u1"
     ∈ history (hist initialHome) ∨
   ∃ body uuid ok, Settle (Fulfilled body) uuid ok ∈ sampleSession ∧
                   cached body = false ∧
                   newEntry (sampleResponse "https://example.com" false) "u1"
                     = newEntry body uuid).
Proof.
  assert (H : newEntry (sampleResponse "https://example.com" false) "u1"
                ∈ history (hist (run sampleSession initialHome))).
  { simpl. apply list_elem_of_here. }
  split; [exact H|].
  exact (history_holds_fresh_only sampleSession initialHome _ H).
Defined.

End HomeFacts.

(* ===================================================================== *)
(** ** Properties of the rendering *)
(* ===================================================================== *)

Module RenderingFacts.
Import Api Rendering.

Lemma Qle_bool_false (x y : Q) : Qle_bool x y = false ↔ (y < x)%Q.
Proof.
  split.
  - intros Hb. apply Qnot_le_lt. rewrite <- Qle_bool_iff, Hb. discriminate.
  - intros Hlt. destruct (Qle_bool x y) eqn:Hb; [|done].
    apply Qle_bool_iff in Hb. by destruct (Qlt_not_le _ _ Hlt).
Qed.


(** The list items of the history use the same two cut-offs. *)
Lemma itemScoreColor_cutoffs (s : Q) :
  (itemScoreColor s = Red ↔ (70 <= s)%Q) ∧
  (itemScoreColor s = Yellow ↔ (40 <= s)%Q ∧ (s < 70)%Q) ∧
  (itemScoreColor s = Green ↔ (s < 40)%Q).
Proof.
  unfold itemScoreColor.
  destruct (Qle_bool 70 s) eqn:H70; [|destruct (Qle_bool 40 s) eqn:H40];
    rewrite ?Qle_bool_iff, ?Qle_bool_false in *;
    repeat split; intros; try discriminate; try lra.
Qed.

(** Every entry is counted by exactly one of the three counters of the
    statistics line. *)
Lemma history_stats_partition (entries : list HistoryEntry) :
  highCount entries + mediumCount entries + safeCount entries = length entries.
Proof.
  unfold highCount, mediumCount, safeCount.
  induction entries as [|e entries IH]; [done|].
  rewrite !filter_cons. simpl.
  destruct (Qle_bool 70 (he_score e)) eqn:H70;
    destruct (Qle_bool 40 (he_score e)) eqn:H40;
    repeat case_decide; simpl; try lia; try tauto; try congruence.
  exfalso. apply Qle_bool_iff in H70. apply Qle_bool_false in H40. lra.
Qed.


End RenderingFacts.

(* ===================================================================== *)
(** ** Properties of the orchestrator *)
(* ===================================================================== *)

Module OrchestratorFacts.
Import Api Pipeline.

(** The analyzer delivered result [r] within its timeout. *)
Definition deliveredInTime (a : Analyzer) (u : string) (r : AnalyzerResult)
    : Prop :=
  ∃ t, a_analyze a u = Returned t r ∧ Qle_bool t (a_timeout a) = true.

(** The analyzer raised, timed out, hung or returned malformed output. *)
Definition failsOn (a : Analyzer) (u : string) : Prop :=
  ∀ r, ¬ deliveredInTime a u r.

(** [r] is the record the orchestrator writes for a failure of [a]. *)
Definition isErrorOf (a : Analyzer) (r : AnalyzerResult) : Prop :=
  ar_name r = a_name a ∧ ar_score r = 0%Q ∧ ar_confidence r = 0%Q ∧
  is_Some (ar_error r).

Lemma errorResult_isErrorOf a t msg : isErrorOf a (errorResult (a_name a) t msg).
Proof. repeat split; simpl; eauto. Qed.

Lemma guarded_cases (a : Analyzer) (u : string) :
  deliveredInTime a u (guarded a u) ∨
  (failsOn a u ∧ isErrorOf a (guarded a u)).
Proof.
  unfold guarded, failsOn, deliveredInTime.
  destruct (a_analyze a u) as [t r|t msg|t|] eqn:Hout;
    try destruct (Qle_bool t (a_timeout a)) eqn:Ht;
    first [ left; by eexists
          | right; split; [|apply errorResult_isErrorOf];
            intros r' (t' & Heq & Ht'); congruence ].
Qed.

Lemma collect_lookup (registry : list Analyzer) (u : string) (i : nat) :
  collect registry u !! i = (λ a, guarded a u) <$> (enabled registry !! i).
Proof. unfold collect. apply list_lookup_fmap. Qed.

(** C2. A run on a valid URL returns one result per enabled analyzer, in
    the order of the registry: the analyzer's own result when it came in
    time, and otherwise a record with score 0, confidence 0 and the error
    set. When every analyzer fails the run still returns one (error) result
    for each of them. *)
Theorem run_one_result_per_enabled_analyzer (E : Env) (cfg : ScorerConfig)
    (p : FeedPolicy) (registry : list Analyzer) (stamp : Stamp)
    (raw u : string) :
  let rs := analyzers (analyse E cfg p registry stamp raw u) in
  length rs = length (enabled registry) ∧
  (∀ i a, enabled registry !! i = Some a →
     ∃ r, rs !! i = Some r ∧
          (deliveredInTime a u r ∨ (failsOn a u ∧ isErrorOf a r))) ∧
  ((∀ a, a ∈ enabled registry → failsOn a u) →
     length rs = length (enabled registry) ∧
     Forall2 isErrorOf (enabled registry) rs).
Proof.
  simpl. split; [|split].
  - unfold collect. by rewrite length_fmap.
  - intros i a Hi. exists (guarded a u). split.
    + by rewrite collect_lookup, Hi.
    + apply guarded_cases.
  - intros Hall. split; [unfold collect; by rewrite length_fmap|].
    unfold collect. apply Forall2_fmap_r, Forall_Forall2_diag, Forall_forall.
    intros a Ha. destruct (guarded_cases a u) as [Hok|[_ Herr]]; [|done].
    by destruct (Hall a Ha (guarded a u)).
Qed.

Definition brokenAnalyzer (n : string) (o : Outcome) : Analyzer :=
  mkAnalyzer n (mkWeight 1 1) 3000 true (λ _, o).

Definition brokenRegistry : list Analyzer :=
  [ brokenAnalyzer "dns_resolver" (Raised 12 "SERVFAIL");
    brokenAnalyzer "rdap_whois" Hung;
    brokenAnalyzer "url_heuristics" (Malformed 3);
    brokenAnalyzer "tls_probe"
      (Returned 5000 (mkAnalyzerResult "tls_probe" 40 0.5 [] ∅ 5000 None));
    mkAnalyzer "web_content" (mkWeight 1 1) 3000 false (λ _, Hung) ].

Example all_fail_still_four_results :
  (λ r, (ar_name r, ar_error r)) <$> collect brokenRegistry "https://example.com"
  = [ ("dns_resolver", Some "SERVFAIL"); ("rdap_whois", Some "timeout");
      ("url_heuristics", Some "malformed output"); ("tls_probe", Some "timeout") ].
Proof. reflexivity. Qed.

End OrchestratorFacts.

(* ===================================================================== *)
(** ** Properties of the scorer *)
(* ===================================================================== *)

Module ScorerFacts.
Import Api Pipeline RenderingFacts.

(** The risk level is the highest of the medium and high thresholds the
    score has reached, and low when it has reached neither. *)
Lemma riskLevel_buckets (cfg : ScorerConfig) (s : Q) :
  (riskLevel cfg s = High ↔ (sc_high cfg <= s)%Q) ∧
  (riskLevel cfg s = Medium ↔ (sc_medium cfg <= s)%Q ∧ (s < sc_high cfg)%Q) ∧
  (riskLevel cfg s = Low ↔ (s < sc_medium cfg)%Q ∧ (s < sc_high cfg)%Q).
Proof.
  unfold riskLevel.
  destruct (Qle_bool (sc_high cfg) s) eqn:Hh;
    [|destruct (Qle_bool (sc_medium cfg) s) eqn:Hm];
    rewrite ?Qle_bool_iff, ?Qle_bool_false in *;
    repeat split; intros; try discriminate; try lra.
Qed.

Lemma withDefaults_thresholds registry cfg :
  sc_low (withDefaults registry cfg) = sc_low cfg ∧
  sc_medium (withDefaults registry cfg) = sc_medium cfg ∧
  sc_high (withDefaults registry cfg) = sc_high cfg.
Proof. done. Qed.

Lemma withDefaults_riskLevel registry cfg s :
  riskLevel (withDefaults registry cfg) s = riskLevel cfg s.
Proof. done. Qed.





Lemma feedResult_hit (E : Env) (p : FeedPolicy) (store : list Indicator)
    (elapsed : Q) (u : string) (i : Indicator) :
  i ∈ lookup E store u → highSeverity (ind_severity i) = true →
  ind_source i ∈ fp_trusted p →
  feedResult E p store elapsed u
  = mkAnalyzerResult (fp_analyzer p) (fp_hit_score p) (fp_hit_confidence p)
      [fp_hit_label p] ∅ elapsed None.
Proof.
  intros Hi Hsev Hsrc. unfold feedResult.
  replace (existsb (dominating p) (lookup E store u)) with true; [done|].
  symmetry. apply existsb_exists. exists i. split; [by apply list_elem_of_In|].
  unfold dominating. rewrite Hsev. simpl. by apply bool_decide_eq_true.
Qed.

(** C5. When the feed-lookup analyzer answered in time and its lookup
    matched a high-severity indicator of a trusted source, the response is
    malicious whatever the other analyzers returned and whatever the
    weights and thresholds are; the other analyzers still ran, one result
    each. *)
Theorem feed_hit_forces_malicious (E : Env) (cfg : ScorerConfig)
    (p : FeedPolicy) (registry : list Analyzer) (stamp : Stamp)
    (raw u : string) (store : list Indicator) (a : Analyzer) (t elapsed : Q)
    (i : Indicator) :
  a ∈ enabled registry →
  a_analyze a u = Returned t (feedResult E p store elapsed u) →
  Qle_bool t (a_timeout a) = true →
  i ∈ lookup E store u →
  highSeverity (ind_severity i) = true →
  ind_source i ∈ fp_trusted p →
  malicious (analyse E cfg p registry stamp raw u) = true ∧
  length (analyzers (analyse E cfg p registry stamp raw u))
    = length (enabled registry).
Proof.
  intros Ha Hout Ht Hi Hsev Hsrc. split.
  - simpl. unfold isMalicious.
    replace (feedShortCircuit p (collect registry u)) with true; [done|].
    symmetry. apply bool_decide_eq_true, Exists_exists.
    exists (guarded a u). split.
    + unfold collect. apply list_elem_of_fmap. by exists a.
    + unfold guarded. rewrite Hout, Ht.
      rewrite (feedResult_hit E p store elapsed u i Hi Hsev Hsrc). simpl.
      repeat split. apply list_elem_of_here.
  - simpl. unfold collect. by rewrite length_fmap.
Qed.

(** *** Monotonicity of the aggregate score *)

(** The same result with another risk score. *)
Definition withScore (s : Q) (r : AnalyzerResult) : AnalyzerResult :=
  mkAnalyzerResult (ar_name r) s (ar_confidence r) (ar_labels r)
    (ar_evidence r) (ar_execution_time_ms r) (ar_error r).



Section Bump.
Context (cfg : ScorerConfig) (s' : Q).



End Bump.


End ScorerFacts.

(* ===================================================================== *)
(** ** Sample deployment *)
(* ===================================================================== *)

Module Sample.
Import Api Pipeline.

(** A stand-in for URL validation: the scheme must be http or https and
    something must follow it; the normal form is the URL itself. A refusal
    reports what a parser would, with the submitted text in it. *)
Definition sampleValidate (raw : string) : Validation :=
  if String.prefix "https://" raw && negb (String.eqb raw "https://")
  then Accepted raw
  else if String.prefix "http://" raw && negb (String.eqb raw "http://")
  then Accepted raw
  else if isSubstring ":" raw
  then Refused InvalidUrl ("ValueError: scheme not permitted in " +:+ raw)
  else Refused UnparseableUrl
         ("Traceback (most recent call last): urlparse failed on " +:+ raw).

Definition sampleDomain (u : string) : string :=
  if String.prefix "https://" u then String.substring 8 (String.length u - 8) u
  else String.substring 7 (String.length u - 7) u.

Definition sampleMessage (kind : InputErrorKind) : string :=
  match kind with
  | UnparseableUrl => "Invalid URL"
  | InvalidUrl => "Unsupported URL"
  end.

Definition sampleLabels (level : RiskLevel) : list string :=
  match level with
  | Low => ["low_risk"]
  | Medium => ["suspicious"]
  | High => ["high_risk"]
  end.

Definition sampleEnv : Env :=
  mkEnv sampleValidate (λ u, String.append "sha256:" u) sampleDomain
    (λ rs, 0.85%Q) sampleLabels UnprocessableEntity sampleMessage
    (λ _, "validation_error").

Lemma bonus_ok : (0 <= 5)%Q.
Proof. discriminate. Qed.

(** The weights and thresholds of the README. *)
Definition sampleConfig : ScorerConfig :=
  mkScorerConfig
    (list_to_map [("blacklist_feeds", mkWeight 9 10);
                  ("dns_resolver", mkWeight 8 10);
                  ("rdap_whois", mkWeight 7 10);
                  ("url_heuristics", mkWeight 6 10);
                  ("tls_probe", mkWeight 4 10)])
    25 50 75 50 5 bonus_ok.

Definition samplePolicy : FeedPolicy :=
  mkFeedPolicy "blacklist_feeds" ["phishtank"; "openphish"; "urlhaus"]
    "blacklisted" 95 0.95 60.

Definition sampleStore : list Indicator :=
  [ mkIndicator IndDomain "evil.test" "phishing" SevCritical "phishtank";
    mkIndicator IndUrl "https://spam.test/offer" "spam" SevLow "openphish" ].

Definition steady (n : string) (s c : Q) : Analyzer :=
  mkAnalyzer n (mkWeight 1 2) 3000 true
    (λ _, Returned 20 (mkAnalyzerResult n s c [] ∅ 20 None)).

Definition sampleRegistry : list Analyzer :=
  [ feedAnalyzer sampleEnv samplePolicy sampleStore (mkWeight 9 10) 3000 15;
    steady "dns_resolver" 10 0.8;
    steady "rdap_whois" 5 0.9;
    steady "url_heuristics" 15 0.7 ].

Definition sampleService : Service :=
  mkService sampleEnv sampleConfig samplePolicy sampleRegistry DEFAULT_TTL.

Definition sampleStamp (n : string) : Stamp :=
  mkStamp n "2024-01-01T12:00:00Z" 245.6.

End Sample.

(* ===================================================================== *)
(** ** Properties of the request surface and the verdict cache *)
(* ===================================================================== *)

Module CacheFacts.
Import Api Pipeline UseAnalyze.

(** *** Input errors *)








(** *** What one step does to the entries of one key *)

(** The cache entry [ov] is absent, or expired at time [now]. *)
Definition staleAt (ov : option Verdict) (now : Z) : Prop :=
  ∀ v, ov = Some v → (v_expires v ≤ now)%Z.

Lemma lookupVerdict_None now key vs :
  lookupVerdict now key vs = None ↔ staleAt (vs !! key) now.
Proof.
  unfold lookupVerdict, staleAt. destruct (vs !! key) as [v|].
  - case_bool_decide as Hlt; split; try done.
    + intros Hs. specialize (Hs v eq_refl). lia.
    + intros _ v' [= <-]. lia.
  - split; [by intros _ v'|done].
Qed.


(** A stale entry is a miss, whether the store can be read or not. *)
Lemma readVerdict_stale now key st :
  staleAt (verdicts st !! key) now → readVerdict now key st = None.
Proof.
  intros Hs. unfold readVerdict. destruct (storeUp st); [|done].
  by apply lookupVerdict_None.
Qed.

Lemma executionsFor_cons key k st vs fs ds up :
  executionsFor key (mkCacheState vs fs (k :: executions st) ds up)
  = if decide (k = key) then S (executionsFor key st) else executionsFor key st.
Proof.
  unfold executionsFor. simpl. rewrite filter_cons.
  by destruct (decide (k = key)).
Qed.


Section OneKey.
Context (sv : Service) (key : string).

(** A step that works on another key, or on no key at all, leaves the
    entries of [key] alone. *)
Lemma step_other (ev : CacheEvent) (st : CacheState) :
  eventKey sv ev ≠ Some key →
  verdicts (cacheStep sv ev st) !! key = verdicts st !! key ∧
  inflight (cacheStep sv ev st) !! key = inflight st !! key ∧
  executionsFor key (cacheStep sv ev st) = executionsFor key st.
Proof.
  destruct ev as [c raw stamp now|k stamp now|up]; simpl; intros Hne; [| |done].
  - unfold arrive, normalize in *.
    destruct (validate (sv_env sv) raw) as [u|kind detail]; [|done].
    simpl in Hne. assert (Hk : fingerprint (sv_env sv) u ≠ key) by congruence.
    destruct (readVerdict now _ st) as [v|].
    { simpl. by rewrite lookup_insert_ne. }
    destruct (inflight st !! fingerprint (sv_env sv) u) as [fl|]; simpl.
    + by rewrite lookup_insert_ne.
    + rewrite lookup_insert_ne by done. rewrite executionsFor_cons.
      by rewrite decide_False.
  - assert (Hk : k ≠ key) by congruence. unfold finish.
    destruct (inflight st !! k) as [fl|]; [|done]. simpl.
    rewrite lookup_delete_ne by done. split; [|done].
    unfold writeVerdict. destruct (storeUp st); [|done].
    by rewrite lookup_insert_ne.
Qed.

(** A request for [key] that finds the entry absent or expired joins the
    computation in flight, or starts one. *)
Lemma step_arrive_miss c raw stamp now st :
  eventKey sv (Arrive c raw stamp now) = Some key →
  staleAt (verdicts st !! key) now →
  let st' := cacheStep sv (Arrive c raw stamp now) st in
  verdicts st' = verdicts st ∧ delivered st' = delivered st ∧
  match inflight st !! key with
  | Some fl =>
      inflight st' !! key
        = Some (mkFlight (fl_url fl) (fl_normalized fl) (fl_waiters fl ++ [c])) ∧
      executionsFor key st' = executionsFor key st
  | None =>
      (∃ u, normalize (sv_env sv) raw = Some u ∧
            inflight st' !! key = Some (mkFlight raw u [c])) ∧
      executionsFor key st' = S (executionsFor key st)
  end.
Proof.
  simpl. intros Hkey Hstale. unfold arrive, normalize in *.
  destruct (validate (sv_env sv) raw) as [u|kind detail]; [|done].
  simpl in Hkey. injection Hkey as Hkey. rewrite Hkey.
  rewrite (readVerdict_stale now key st Hstale).
  destruct (inflight st !! key) as [fl|]; simpl.
  - by rewrite lookup_insert_eq.
  - rewrite lookup_insert_eq, executionsFor_cons, decide_True by done.
    repeat split. by exists u.
Qed.

(** The caller of a request for [key]. *)
Definition arrivalOf (ev : CacheEvent) : option nat :=
  match ev with
  | Arrive c _ _ _ => if decide (eventKey sv ev = Some key) then Some c else None
  | Finish _ _ _ => None
  | Outage _ => None
  end.

Definition arrivals (evs : list CacheEvent) : list nat := omap arrivalOf evs.

(** While the computation for [key] is pending: requests for [key] find
    the entry [ov] absent or expired, and no completion for [key] occurs;
    the store may come and go. *)
Definition pending (ov : option Verdict) (ev : CacheEvent) : Prop :=
  match ev with
  | Arrive _ _ _ now => eventKey sv ev = Some key → staleAt ov now
  | Finish k _ _ => k ≠ key
  | Outage _ => True
  end.

Lemma run_pending (evs : list CacheEvent) (st : CacheState) :
  Forall (pending (verdicts st !! key)) evs →
  let st' := cacheRun sv evs st in
  verdicts st' !! key = verdicts st !! key ∧
  match inflight st !! key with
  | Some fl =>
      inflight st' !! key
        = Some (mkFlight (fl_url fl) (fl_normalized fl)
                         (fl_waiters fl ++ arrivals evs)) ∧
      executionsFor key st' = executionsFor key st
  | None =>
      match arrivals evs with
      | [] =>
          inflight st' !! key = None ∧
          executionsFor key st' = executionsFor key st
      | cs =>
          (∃ raw u, inflight st' !! key = Some (mkFlight raw u cs)) ∧
          executionsFor key st' = S (executionsFor key st)
      end
  end.
Proof.
  revert st. induction evs as [|ev evs IH]; intros st Hall.
  - simpl. split; [done|]. destruct (inflight st !! key) as [[a b w]|]; [|done].
    simpl. by rewrite app_nil_r.
  - apply Forall_cons in Hall as [Hev Hall].
    change (cacheRun sv (ev :: evs) st)
      with (cacheRun sv evs (cacheStep sv ev st)). cbv zeta.
    destruct (decide (eventKey sv ev = Some key)) as [Hk|Hk].
    + destruct ev as [c raw stamp now|k stamp now|up];
        [|simpl in Hev, Hk; congruence|simpl in Hk; congruence].
      destruct (step_arrive_miss c raw stamp now st Hk (Hev Hk))
        as (Hv & _ & Hfl).
      specialize (IH (cacheStep sv (Arrive c raw stamp now) st)).
      rewrite Hv in IH. destruct (IH Hall) as [IHv IHf]. clear IH.
      split; [done|].
      assert (Harr : arrivals (Arrive c raw stamp now :: evs) = c :: arrivals evs).
      { unfold arrivals. simpl. by rewrite decide_True. }
      rewrite Harr.
      destruct (inflight st !! key) as [fl|].
      * destruct Hfl as [Hfl Hex]. rewrite Hfl in IHf.
        cbn [fl_url fl_normalized fl_waiters] in IHf.
        rewrite <- app_assoc in IHf. destruct IHf as [IHf IHe].
        split; [exact IHf|congruence].
      * destruct Hfl as [(u & Hu & Hfl) Hex].
        rewrite Hfl in IHf. cbn [fl_url fl_normalized fl_waiters] in IHf.
        destruct IHf as [IHf IHe].
        split; [by exists raw, u|congruence].
    + destruct (step_other ev st Hk) as (Hv & Hf & Hex).
      specialize (IH (cacheStep sv ev st)).
      rewrite Hv in IH. destruct (IH Hall) as [IHv IHf]. clear IH.
      split; [done|].
      assert (Harr : arrivals (ev :: evs) = arrivals evs).
      { unfold arrivals. simpl. destruct ev; simpl; [|done|done].
        by rewrite decide_False. }
      rewrite Harr. rewrite Hf, Hex in IHf. done.
Qed.


(** The completion of the computation in flight hands the one result to
    every waiting caller and clears the registry entry; it stores the
    verdict when the store can be reached. *)
Lemma finish_delivers (fl : Flight) stamp now st :
  inflight st !! key = Some fl →
  let r := analyse (sv_env sv) (sv_config sv) (sv_policy sv) (sv_registry sv)
             stamp (fl_url fl) (fl_normalized fl) in
  let st' := cacheStep sv (Finish key stamp now) st in
  delivered st'
    = ((λ c, (c, Success r)) <$> reverse (fl_waiters fl)) ++ delivered st ∧
  inflight st' !! key = None ∧
  (storeUp st = true →
     verdicts st' !! key = Some (toVerdict key now (sv_ttl sv) r)) ∧
  (storeUp st = false → verdicts st' = verdicts st) ∧
  executionsFor key st' = executionsFor key st.
Proof.
  intros Hfl. simpl. unfold finish. rewrite Hfl. simpl.
  rewrite lookup_delete_eq. unfold writeVerdict.
  split_and!; try done.
  - intros ->. by rewrite lookup_insert_eq.
  - by intros ->.
Qed.

Lemma cacheRun_snoc evs ev st :
  cacheRun sv (evs ++ [ev]) st = cacheStep sv ev (cacheRun sv evs st).
Proof. unfold cacheRun. by rewrite foldl_app. Qed.

End OneKey.

(** C1. Take a key with no computation in flight and any interleaving of
    events in which every request for the key finds its cache entry absent
    or expired and all of them arrive before the computation completes
    (events on other keys may come in between). Then exactly one pipeline
    execution is started for the key, and its completion hands one and the
    same result to every one of the callers. *)
Theorem single_flight (sv : Service) (key : string) (evs : list CacheEvent)
    (st : CacheState) (stamp : Stamp) (now : Z) :
  inflight st !! key = None →
  Forall (pending sv key (verdicts st !! key)) evs →
  arrivals sv key evs ≠ [] →
  let mid := cacheRun sv evs st in
  let final := cacheRun sv (evs ++ [Finish key stamp now]) st in
  executionsFor key mid = S (executionsFor key st) ∧
  executionsFor key final = S (executionsFor key st) ∧
  ∃ raw u r,
    r = analyse (sv_env sv) (sv_config sv) (sv_policy sv) (sv_registry sv)
          stamp raw u ∧
    cached r = false ∧
    delivered final
      = ((λ c, (c, Success r)) <$> reverse (arrivals sv key evs))
        ++ delivered mid ∧
    (∀ c, c ∈ arrivals sv key evs → (c, Success r) ∈ delivered final) ∧
    inflight final !! key = None.
Proof.
  intros Hnone Hpend Harr mid final.
  destruct (run_pending sv key evs st Hpend) as [_ Hrun].
  rewrite Hnone in Hrun.
  destruct (arrivals sv key evs) as [|c cs] eqn:Hcs; [done|].
  destruct Hrun as [(raw & u & Hfl) Hex].
  destruct (finish_delivers sv key _ stamp now _ Hfl) as (Hd & Hf & _ & _ & Hex').
  subst final mid. rewrite cacheRun_snoc.
  split; [done|]. split; [by rewrite Hex'|].
  exists raw, u. eexists. split; [reflexivity|].
  split; [done|]. split; [exact Hd|]. split; [|exact Hf].
  intros c' Hc'. rewrite Hd. apply elem_of_app. left.
  apply list_elem_of_fmap. exists c'. split; [done|].
  by apply elem_of_reverse.
Qed.


(** *** A stored verdict within its lifetime *)

Section Settled.
Context (sv : Service) (key : string) (v0 : Verdict) (n : nat).



End Settled.





End CacheFacts.

(* ===================================================================== *)
(** ** The properties at work on the sample deployment *)
(* ===================================================================== *)

Module Instances.
Import Api Pipeline Sample OrchestratorFacts ScorerFacts CacheFacts.

(** *** Single flight *)

Definition exampleKey : string := fingerprint sampleEnv "https://example.com".

(** Three callers ask for the same URL while a fourth asks for another one
    and a fifth sends no URL at all. *)
Definition burst : list CacheEvent :=
  [ Arrive 1 "https://example.com" (sampleStamp "a") 100;
    Arrive 9 "https://other.test" (sampleStamp "b") 101;
    Arrive 2 "https://example.com" (sampleStamp "c") 102;
    Arrive 8 "not a url" (sampleStamp "d") 102;
    Arrive 3 "https://example.com" (sampleStamp "e") 103 ].

Example burst_runs_once :
  let st := cacheRun sampleService
              (burst ++ [Finish exampleKey (sampleStamp "f") 104]) emptyCache in
  executionsFor exampleKey st = 1 ∧
  fst <$> delivered st = [3; 2; 1; 8].
Proof. by vm_compute. Qed.

(** The store going away in the middle of the burst changes nothing: the
    three requests still share one execution. *)
Example burst_during_outage_runs_once :
  let st := cacheRun sampleService
              (Outage false :: burst ++ [Finish exampleKey (sampleStamp "f") 104])
              emptyCache in
  executionsFor exampleKey st = 1 ∧
  fst <$> delivered st = [3; 2; 1; 8] ∧
  verdicts st !! exampleKey = None.
Proof. by vm_compute. Qed.

Lemma burst_pending :
  Forall (pending sampleService exampleKey (verdicts emptyCache !! exampleKey))
    burst.
Proof.
  repeat constructor; simpl; intros _ v Hv; discriminate Hv.
Defined.

Lemma burst_arrivals : arrivals sampleService exampleKey burst ≠ [].
Proof. vm_compute. discriminate. Defined.

Lemma single_flight_witness :
  inflight emptyCache !! exampleKey = None ∧
  Forall (pending sampleService exampleKey (verdicts emptyCache !! exampleKey))
    burst ∧
  arrivals sampleService exampleKey burst ≠ [] ∧
  let mid := cacheRun sampleService burst emptyCache in
  let final := cacheRun sampleService
                 (burst ++ [Finish exampleKey (sampleStamp "f") 104])
                 emptyCache in
  executionsFor exampleKey mid = S (executionsFor exampleKey emptyCache) ∧
  executionsFor exampleKey final = S (executionsFor exampleKey emptyCache) ∧
  ∃ raw u r,
    r = analyse (sv_env sampleService) (sv_config sampleService)
          (sv_policy sampleService) (sv_registry sampleService)
          (sampleStamp "f") raw u ∧
    cached r = false ∧
    delivered final
      = ((λ c, (c, Success r)) <$> reverse (arrivals sampleService exampleKey burst))
        ++ delivered mid ∧
    (∀ c, c ∈ arrivals sampleService exampleKey burst →
          (c, Success r) ∈ delivered final) ∧
    inflight final !! exampleKey = None.
Proof.
  split; [reflexivity|]. split; [exact burst_pending|].
  split; [exact burst_arrivals|].
  exact (single_flight sampleService exampleKey burst emptyCache
           (sampleStamp "f") 104 eq_refl burst_pending burst_arrivals).
Defined.

(** *** Re-query within the TTL *)






(** After expiry the same request is a miss again and starts the pipeline. *)
Example requery_after_ttl_runs_again :
  let st1 := cacheRun sampleService
               [Arrive 1 "https://example.com" (sampleStamp "a") 1000;
                Finish exampleKey (sampleStamp "f") 1001] emptyCache in
  let st3 := cacheStep sampleService
               (Arrive 2 "https://example.com" (sampleStamp "k") 87401) st1 in
  executionsFor exampleKey st1 = 1 ∧ executionsFor exampleKey st3 = 2.
Proof. by vm_compute. Qed.




(** The same happens when the verdict was stored and the store is away at
    the time of the second request. *)
Example requery_during_outage_runs_again :
  let st := cacheRun sampleService
              [Arrive 1 "https://example.com" (sampleStamp "a") 1000;
               Finish exampleKey (sampleStamp "f") 1001;
               Outage false;
               Arrive 2 "https://example.com" (sampleStamp "k") 2000;
               Finish exampleKey (sampleStamp "m") 2001] emptyCache in
  is_Some (verdicts st !! exampleKey) ∧
  executionsFor exampleKey st = 2 ∧
  (λ x, match x.2 with Success r => Some (cached r) | Failure _ => None end)
    <$> delivered st = [Some false; Some false].
Proof. vm_compute. split_and!; [by eexists|done|done]. Qed.

(** *** Input errors *)

(** Another deployment with the same error table whose validation reports
    something else internally. *)
Definition verboseEnv : Env :=
  mkEnv (λ raw, match sampleValidate raw with
                | Accepted u => Accepted u
                | Refused k _ => Refused k "pydantic_core.ValidationError: 1 validation error for AnalyzeRequest"
                end)
    (fingerprint sampleEnv) (domain_of sampleEnv) (confidence_of sampleEnv)
    (derived_labels sampleEnv) UnprocessableEntity sampleMessage
    (λ _, "validation_error").

Example refusals_show_no_detail :
  let st := cacheRun sampleService
              [Arrive 1 "not a url" (sampleStamp "a") 10;
               Arrive 2 "neither is this" (sampleStamp "b") 11;
               Arrive 3 "javascript:alert(1)" (sampleStamp "c") 12] emptyCache in
  delivered st
  = [ (3, Failure (mkApiError 422 "Unsupported URL" "validation_error"));
      (2, Failure (mkApiError 422 "Invalid URL" "validation_error"));
      (1, Failure (mkApiError 422 "Invalid URL" "validation_error")) ] ∧
  executions st = [] ∧ inflight st = ∅ ∧ verdicts st = ∅.
Proof. by vm_compute. Qed.

Example invalid_url_message_shown :
  UseAnalyze.error
    (UseAnalyze.analyzeSettle
       (toOutcome (Failure (inputError sampleEnv UnparseableUrl))))
  = Some "Invalid URL".
Proof. reflexivity. Qed.


(** *** Monotonicity *)

Definition dnsResult (s : Q) : AnalyzerResult :=
  mkAnalyzerResult "dns_resolver" s 0.8 [] ∅ 20 None.

Definition threeResults : list AnalyzerResult :=
  [ mkAnalyzerResult "blacklist_feeds" 0 0.95 [] ∅ 15 None;
    dnsResult 40;
    mkAnalyzerResult "rdap_whois" 70 0.9 [] ∅ 20 None ].

(** Raising the DNS score from 40 to 60 raises the weighted sum by 16 and
    turns the consensus from two results below the neutral threshold to two
    above it. *)
Example raising_dns_flips_consensus :
  Qred (aggregate sampleConfig threeResults) = 76%Q ∧
  Qred (aggregate sampleConfig (<[1%nat := withScore 60 (dnsResult 40)]> threeResults))
    = 102%Q.
Proof. by vm_compute. Qed.

(** An analyzer the configuration does not list is scored with its own
    default weight. *)
Example default_weight_in_force :
  let rs := [mkAnalyzerResult "web_content" 30 0.9 [] ∅ 20 None] in
  let registry := [steady "web_content" 30 0.9] in
  Qred (weightedSum sampleConfig rs) = 0%Q ∧
  Qred (weightedSum (withDefaults registry sampleConfig) rs) = 15%Q.
Proof. by vm_compute. Qed.


(** *** Feed hit *)

Definition evilUrl : string := "https://evil.test/login".

Definition evilIndicator : Indicator :=
  mkIndicator IndDomain "evil.test" "phishing" SevCritical "phishtank".

(** A registry whose other analyzers all vouch for the URL. *)
Definition trustingRegistry : list Analyzer :=
  [ steady "dns_resolver" (-100) 0.9;
    feedAnalyzer sampleEnv samplePolicy sampleStore (mkWeight 9 10) 3000 15;
    steady "rdap_whois" (-100) 0.9;
    steady "url_heuristics" (-100) 0.9 ].

Example feed_hit_overrides_low_score :
  let r := analyse sampleEnv sampleConfig samplePolicy trustingRegistry
             (sampleStamp "a") evilUrl evilUrl in
  Qred (score r) = (-259 # 2)%Q ∧ malicious r = true ∧
  riskLevel sampleConfig (score r) = Low ∧
  length (analyzers r) = 4%nat.
Proof. by vm_compute. Qed.

Lemma feed_in_registry :
  feedAnalyzer sampleEnv samplePolicy sampleStore (mkWeight 9 10) 3000 15
    ∈ enabled trustingRegistry.
Proof. vm_compute. apply list_elem_of_further, list_elem_of_here. Defined.

Lemma evil_matched : evilIndicator ∈ lookup sampleEnv sampleStore evilUrl.
Proof. vm_compute. apply list_elem_of_here. Defined.

Lemma evil_trusted : ind_source evilIndicator ∈ fp_trusted samplePolicy.
Proof. simpl. apply list_elem_of_here. Defined.

Lemma feed_hit_forces_malicious_witness :
  feedAnalyzer sampleEnv samplePolicy sampleStore (mkWeight 9 10) 3000 15
    ∈ enabled trustingRegistry ∧
  a_analyze (feedAnalyzer sampleEnv samplePolicy sampleStore (mkWeight 9 10) 3000 15)
      evilUrl
    = Returned 15 (feedResult sampleEnv samplePolicy sampleStore 15 evilUrl) ∧
  Qle_bool 15 (a_timeout (feedAnalyzer sampleEnv samplePolicy sampleStore
                            (mkWeight 9 10) 3000 15))
    = true ∧
  evilIndicator ∈ lookup sampleEnv sampleStore evilUrl ∧
  highSeverity (ind_severity evilIndicator) = true ∧
  ind_source evilIndicator ∈ fp_trusted samplePolicy ∧
  malicious (analyse sampleEnv sampleConfig samplePolicy trustingRegistry
               (sampleStamp "a") evilUrl evilUrl) = true ∧
  length (analyzers (analyse sampleEnv sampleConfig samplePolicy trustingRegistry
                       (sampleStamp "a") evilUrl evilUrl))
    = length (enabled trustingRegistry).
Proof.
  split; [exact feed_in_registry|]. split; [reflexivity|].
  split; [reflexivity|]. split; [exact evil_matched|]. split; [reflexivity|].
  split; [exact evil_trusted|].
  exact (feed_hit_forces_malicious sampleEnv sampleConfig samplePolicy
           trustingRegistry (sampleStamp "a") evilUrl evilUrl sampleStore
           (feedAnalyzer sampleEnv samplePolicy sampleStore (mkWeight 9 10) 3000 15)
           15 15 evilIndicator
           feed_in_registry eq_refl eq_refl evil_matched eq_refl evil_trusted).
Defined.

(** *** Buckets, flag and colours *)

Definition plainUrl : string := "https://example.com".

(** The benign example: the score 15.5 of the README's sample response, in
    the low bucket, not malicious, painted green. *)
Example plain_url_is_low_and_green :
  let r := analyse sampleEnv sampleConfig samplePolicy sampleRegistry
             (sampleStamp "a") plainUrl plainUrl in
  Qred (score r) = Qred 15.5 ∧ malicious r = false ∧
  riskLevel sampleConfig (score r) = Low ∧
  labels r = ["low_risk"] ∧
  Rendering.getScoreColor (score r) = Rendering.Green.
Proof. by vm_compute. Qed.

(** A score of 45 is below the configured medium threshold (50), so the
    response is not malicious and its level is low, yet the page paints it
    yellow. *)
Example colour_ignores_configuration :
  isMalicious sampleConfig samplePolicy [dnsResult 45] 45 = false ∧
  riskLevel sampleConfig 45 = Low ∧
  Rendering.getScoreColor 45 = Rendering.Yellow.
Proof. by vm_compute. Qed.

(** The expected results of the quick start (18.50 low, 68.50 medium, 72.30
    high) are the levels of exactly the configurations whose medium
    threshold lies between the first two scores and whose high threshold
    lies between the last two; 85.40 is then high as well. *)
Lemma quick_start_levels (cfg : ScorerConfig) :
  riskLevel cfg 18.5 = Low ∧ riskLevel cfg 68.5 = Medium ∧
  riskLevel cfg 72.3 = High
  ↔ (18.5 < sc_medium cfg)%Q ∧ (sc_medium cfg <= 68.5)%Q ∧
    (68.5 < sc_high cfg)%Q ∧ (sc_high cfg <= 72.3)%Q.
Proof.
  pose proof (riskLevel_buckets cfg 18.5) as (_ & _ & HL).
  pose proof (riskLevel_buckets cfg 68.5) as (_ & HM & _).
  pose proof (riskLevel_buckets cfg 72.3) as (HH & _ & _).
  rewrite HL, HM, HH. split; intros; destruct_and?; split_and!; lra.
Qed.

(** The cut-offs of the front end are such a configuration; the thresholds
    of the README's sample file put 72.30 in the medium bucket. *)
Example quick_start_under_two_configurations :
  let frontEnd := mkScorerConfig ∅ 25 40 70 50 5 bonus_ok in
  riskLevel frontEnd <$> [18.5; 68.5; 72.3; 85.4]%Q
    = [Low; Medium; High; High] ∧
  riskLevel sampleConfig <$> [18.5; 68.5; 72.3; 85.4]%Q
    = [Low; Medium; Medium; High].
Proof. by vm_compute. Qed.


End Instances.

(* ===================================================================== *)
(** ** Further properties of the history store *)
(* ===================================================================== *)

Module HistoryMore.
Import Api UseHistory UseAnalyze Home Views.

Lemma filter_url_absent (u : string) (h : list HistoryEntry) :
  u ∉ he_url <$> h → filter (λ e, he_url e ≠ u) h = h.
Proof.
  induction h as [|x h IH]; [done|]. rewrite fmap_cons, not_elem_of_cons.
  intros [Hx Hh]. rewrite filter_cons, decide_True by done. by rewrite IH.
Qed.

Lemma filter_url_present (u : string) (h : list HistoryEntry) :
  NoDup (he_url <$> h) → u ∈ he_url <$> h →
  S (length (filter (λ e, he_url e ≠ u) h)) = length h.
Proof.
  induction h as [|x h IH]; [by intros _ ?%elem_of_nil|].
  rewrite fmap_cons, NoDup_cons, elem_of_cons. intros [Hx Hnd] Hin.
  rewrite filter_cons. destruct (decide (he_url x ≠ u)) as [Hne|Heq].
  - simpl. f_equal. apply IH; [done|]. by destruct Hin.
  - apply dec_stable in Heq. subst u. simpl. f_equal.
    by rewrite filter_url_absent.
Qed.

(** X1. Re-analysing a URL that is already in the history moves it to the
    front: the old entry of that URL is replaced by the new one, every
    other entry stays, in the same order, and the length does not change. *)
Theorem addEntry_known_url_moves_to_front (ok : bool) (uuid : string)
    (response : AnalysisResponse) (st : HookState) :
  history_inv (history st) →
  url response ∈ he_url <$> history st →
  history (addEntry ok uuid response st)
    = newEntry response uuid
      :: filter (λ e, he_url e ≠ url response) (history st) ∧
  length (history (addEntry ok uuid response st)) = length (history st).
Proof.
  intros [Hlen Hnd] Hin. simpl. unfold addUpdate. simpl.
  pose proof (filter_url_present _ _ Hnd Hin) as Hf.
  unfold MAX_HISTORY_ITEMS in *.
  rewrite take_ge by (simpl; lia). split; [done|]. simpl. lia.
Qed.

(** X2. Analysing a URL that is not in the history puts its entry in front of
    the old ones; when the history is full (20 entries) exactly the last,
    oldest entry falls off. *)
Theorem addEntry_new_url_evicts_oldest (ok : bool) (uuid : string)
    (response : AnalysisResponse) (st : HookState) :
  url response ∉ he_url <$> history st →
  (length (history st) < MAX_HISTORY_ITEMS →
     history (addEntry ok uuid response st)
       = newEntry response uuid :: history st) ∧
  (∀ older oldest, history st = older ++ [oldest] →
     length (history st) = MAX_HISTORY_ITEMS →
     history (addEntry ok uuid response st)
       = newEntry response uuid :: older).
Proof.
  intros Hnew. simpl. unfold addUpdate. simpl.
  rewrite (filter_url_absent _ _ Hnew). unfold MAX_HISTORY_ITEMS. split.
  - intros Hlt. by rewrite take_ge by (simpl; lia).
  - intros older oldest -> Hlen. rewrite length_app in Hlen. simpl in Hlen.
    simpl. f_equal. rewrite take_app_le by lia. apply take_ge. lia.
Qed.

Lemma addUpdate_url_once (e : HistoryEntry) (h : list HistoryEntry) :
  filter (λ x, he_url x = he_url e) (addUpdate e h) = [e].
Proof.
  unfold addUpdate, MAX_HISTORY_ITEMS. simpl.
  rewrite filter_cons, decide_True by done. f_equal.
  assert (Hnone : ∀ l : list HistoryEntry,
            Forall (λ x, he_url x ≠ he_url e) l →
            filter (λ x, he_url x = he_url e) l = []).
  { induction 1 as [|x l Hx _ IH]; [done|].
    by rewrite filter_cons, decide_False. }
  apply Hnone, Forall_take, Forall_forall. intros x Hx.
  by apply list_elem_of_filter in Hx as [? _].
Qed.

(** X3. Recording the same response again changes nothing: [addEntry] with
    the same response and the same generated id is idempotent on the
    history. *)
Theorem addEntry_idempotent (ok1 ok2 : bool) (uuid : string)
    (response : AnalysisResponse) (st : HookState) :
  history (addEntry ok2 uuid response (addEntry ok1 uuid response st))
  = history (addEntry ok1 uuid response st).
Proof.
  simpl. set (e := newEntry response uuid). unfold addUpdate.
  change (take MAX_HISTORY_ITEMS
            (e :: filter (λ entry, he_url entry ≠ he_url e) (history st)))
    with (e :: take 19 (filter (λ entry, he_url entry ≠ he_url e) (history st))).
  rewrite filter_cons, decide_False by (intros Hne; by apply Hne).
  rewrite UseHistoryFacts.filter_all.
  - unfold MAX_HISTORY_ITEMS. simpl. f_equal. apply take_take.
  - apply Forall_take, Forall_forall. intros x Hx.
    by apply list_elem_of_filter in Hx as [? _].
Qed.

Lemma removeUpdate_twice a b h :
  removeUpdate a (removeUpdate b h)
  = filter (λ e, he_id e ≠ a ∧ he_id e ≠ b) h.
Proof.
  unfold removeUpdate. induction h as [|x h IH]; [done|].
  rewrite !filter_cons.
  destruct (decide (he_id x ≠ b)); destruct (decide (he_id x ≠ a));
    rewrite ?filter_cons; repeat case_decide; try tauto; try done;
    by rewrite ?IH.
Qed.

(** X4. Removals compose: removing the same id twice is removing it once, two
    removals commute, and removing an id that no entry carries changes
    nothing. *)
Theorem removeEntry_compose (ok1 ok2 : bool) (a b : string) (st : HookState) :
  history (removeEntry ok2 a (removeEntry ok1 a st))
    = history (removeEntry ok1 a st) ∧
  history (removeEntry ok2 a (removeEntry ok1 b st))
    = history (removeEntry ok2 b (removeEntry ok1 a st)) ∧
  (a ∉ he_id <$> history st → history (removeEntry ok1 a st) = history st).
Proof.
  simpl. split; [|split].
  - rewrite removeUpdate_twice. unfold removeUpdate.
    apply list_filter_iff. tauto.
  - rewrite !removeUpdate_twice. apply list_filter_iff. tauto.
  - intros Hout. unfold removeUpdate.
    induction (history st) as [|x h IH]; [done|].
    rewrite fmap_cons, not_elem_of_cons in Hout. destruct Hout as [Hx Hh].
    rewrite filter_cons, decide_True by done. by rewrite IH.
Qed.

(** *** Persistence *)

(** The item in [localStorage] holds the list on the screen; an absent
    item goes with the empty list. *)
Definition synced (st : HookState) : Prop :=
  stored st = Some (history st) ∨ (stored st = None ∧ history st = []).

(** The storage call of the event, if it makes one, succeeds. *)
Definition storageOk (ev : Event) : Prop :=
  match ev with
  | Submit => True
  | Settle (Fulfilled body) _ ok => cached body = false → ok = true
  | Settle _ _ _ => True
  | Remove _ ok => ok = true
  | Clear ok => ok = true
  end.

Lemma pageLoad_synced (st : HookState) :
  synced st → history (pageLoad (stored st)) = history st.
Proof.
  unfold pageLoad, loadHistory. simpl.
  by intros [->|[-> ->]].
Qed.

Lemma step_synced ev st :
  storageOk ev → synced (hist st) → synced (hist (step ev st)).
Proof.
  destruct ev as [|o uuid ok|id ok|ok]; simpl; intros Hok Hs; try done.
  - destruct o as [body| | |[]]; simpl; try done.
    destruct (cached body); [done|]. rewrite Hok by done. by left.
  - subst. by left.
  - subst. by right.
Qed.

(** X5. When every storage call succeeds, the history survives a reload: after
    any sequence of events on the page, opening the page again from the
    stored item shows the list that was on the screen. *)
Theorem history_survives_reload (evs : list Event) (st : HomeState) :
  Forall storageOk evs → synced (hist st) →
  history (pageLoad (stored (hist (run evs st))))
  = history (hist (run evs st)).
Proof.
  intros Hall Hs. apply pageLoad_synced. revert st Hs.
  induction Hall as [|ev evs Hev _ IH]; intros st Hs; [done|].
  simpl. apply IH. by apply step_synced.
Qed.

(** X6. A write that [localStorage] refuses is lost at the next page load: the
    screen shows the new list, the reloaded page shows the list of before. *)
Theorem failed_write_lost_on_reload (uuid id : string)
    (response : AnalysisResponse) (st : HookState) :
  synced st →
  history (pageLoad (stored (addEntry false uuid response st))) = history st ∧
  history (pageLoad (stored (removeEntry false id st))) = history st ∧
  history (pageLoad (stored (clearHistory false st))) = history st ∧
  head (history (addEntry false uuid response st))
    = Some (newEntry response uuid) ∧
  history (clearHistory false st) = [].
Proof.
  intros Hs. pose proof (pageLoad_synced st Hs) as Hl. by simpl.
Qed.

Lemma step_inv ev st :
  history_inv (history (hist st)) → history_inv (history (hist (step ev st))).
Proof.
  intros Hinv.
  destruct ev as [|o uuid ok|id ok|ok]; simpl; try done.
  - destruct o as [body| | |[]]; simpl; try done.
    destruct (cached body); [done|].
    by apply UseHistoryFacts.addUpdate_inv.
  - by apply UseHistoryFacts.removeUpdate_inv.
  - split; [simpl; lia|constructor].
Qed.

(** X7. The invariant holds on the whole life of a page: from a history of at
    most 20 entries with distinct URLs, every sequence of events leads to
    such a history, so the counter in the header never shows more than 20. *)
Theorem page_keeps_history_inv (evs : list Event) (st : HomeState) :
  history_inv (history (hist st)) →
  history_inv (history (hist (run evs st))) ∧
  length (history (hist (run evs st))) ≤ 20.
Proof.
  intros Hinv.
  assert (H : history_inv (history (hist (run evs st)))).
  { revert st Hinv. induction evs as [|ev evs IH]; intros st Hinv; [done|].
    simpl. apply IH. by apply step_inv. }
  split; [done|]. by destruct H.
Qed.

(** X8. A fresh response is always recorded, once and in front: when a request
    settles with a response that is not cached, its entry becomes the first
    of the history and is the only one with that URL, whatever the history
    held before and whether or not the write to [localStorage] succeeds. *)
Theorem fresh_response_recorded_once_in_front (body : AnalysisResponse)
    (uuid : string) (ok : bool) (st : HomeState) :
  cached body = false →
  let st' := step (Settle (Fulfilled body) uuid ok) st in
  head (history (hist st')) = Some (newEntry body uuid) ∧
  filter (λ e, he_url e = url body) (history (hist st'))
    = [newEntry body uuid] ∧
  length (history (hist st')) ≤ MAX_HISTORY_ITEMS.
Proof.
  intros Hc. simpl. rewrite Hc. split; [done|]. split.
  - apply addUpdate_url_once.
  - unfold addEntry. simpl. unfold addUpdate, MAX_HISTORY_ITEMS.
    rewrite length_take. lia.
Qed.

(** The event is a submission, a failed request or a response served from
    the cache. *)
Definition quiet (ev : Event) : Prop :=
  match ev with
  | Submit => True
  | Settle (Fulfilled body) _ _ => cached body = true
  | Settle _ _ _ => True
  | Remove _ _ | Clear _ => False
  end.

(** X9. Submissions, failed requests and cached responses leave the history
    and the stored item untouched, however many of them follow each
    other. *)
Theorem quiet_events_keep_history (evs : list Event) (st : HomeState) :
  Forall quiet evs → hist (run evs st) = hist st.
Proof.
  intros Hall. revert st.
  induction Hall as [|ev evs Hev _ IH]; intros st; [done|].
  simpl. rewrite IH.
  destruct ev as [|o uuid ok|id ok|ok]; simpl in *; try done.
  destruct o as [body| | |[]]; simpl; try done. by rewrite Hev.
Qed.

End HistoryMore.

(* ===================================================================== *)
(** ** Properties of the request hook and of the views *)
(* ===================================================================== *)

Module ViewFacts.
Import Api UseHistory UseAnalyze Rendering Home Views RenderingFacts.
Import Stdlib.Strings.Ascii.

(** X10. When a request has settled the hook is not loading and never
    holds a response together with an error message; it holds neither
    exactly when the service answered 200 with a falsy body; for a body
    that is not ok and has the shape of [ApiError] the message is never
    empty: it is the message of the body, or the fallback text when that
    one is empty. *)
Theorem analyze_settles_to_data_or_error (o : FetchOutcome) :
  loading (analyzeSettle o) = false ∧
  ¬ (is_Some (data (analyzeSettle o)) ∧ is_Some (error (analyzeSettle o))) ∧
  (data (analyzeSettle o) = None ∧ error (analyzeSettle o) = None
     ↔ o = FulfilledEmpty) ∧
  (∀ e, o = Rejected e →
     ∃ m, error (analyzeSettle o) = Some m ∧ m ≠ "" ∧
          (err_message e ≠ "" → m = err_message e) ∧
          (err_message e = "" → m = FALLBACK_MESSAGE)).
Proof.
  split; [by destruct o as [| | |[]]|].
  split; [destruct o as [| | |[]]; simpl; intros [[? ?] [? ?]]; done|].
  split; [destruct o as [| | |[]]; simpl; split; try done; by intros [? ?]|].
  intros e ->. simpl. unfold surfacedMessage.
  destruct (decide (err_message e = "")) as [Heq|Hne].
  - exists FALLBACK_MESSAGE. by repeat split.
  - exists (err_message e). by repeat split.
Qed.

(** X11. What the results component shows once a request has settled: the
    result card for a response, an error box with a message that is not
    empty for an error body of the service, never the spinner, and nothing
    at all exactly in two cases: the service answered 200 with a falsy
    body, or the request threw an [Error] whose message is the empty
    string. *)
Theorem settled_view (o : FetchOutcome) :
  searchResultsView (analyzeSettle o) ≠ Spinner ∧
  (∀ d, o = Fulfilled d → searchResultsView (analyzeSettle o) = ResultCard d) ∧
  (∀ e, o = Rejected e →
     searchResultsView (analyzeSettle o) = ErrorBox (surfacedMessage e) ∧
     surfacedMessage e ≠ "") ∧
  (searchResultsView (analyzeSettle o) = Blank
     ↔ o = FulfilledEmpty ∨ o = Thrown (Some "")).
Proof.
  assert (Hne : ∀ e, surfacedMessage e ≠ "").
  { intros e. unfold surfacedMessage. by case_decide. }
  split; [|split; [|split]].
  - destruct o as [d| |e|[m|]]; unfold searchResultsView; simpl;
      repeat case_decide; done.
  - by intros d ->.
  - intros e ->. split; [|done]. unfold searchResultsView. simpl.
    by rewrite decide_False.
  - destruct o as [d| |e|[m|]]; unfold searchResultsView; simpl.
    + split; [done|]. by intros [?|?].
    + split; [by left|done].
    + rewrite decide_False by done. split; [done|]. by intros [?|?].
    + case_decide; [subst; split; [by right|done]|].
      split; [done|]. intros [?|[= ->]]; done.
    + split; [done|]. by intros [?|?].
Qed.

(** The state of the request hook is consistent with [loading]: nothing
    is held while loading, and never a response together with an error. *)
Definition coherent (a : UseAnalyzeState) : Prop :=
  (loading a = true → data a = None ∧ error a = None) ∧
  (is_Some (data a) → error a = None).

Lemma step_coherent ev st : coherent (analysis st) → coherent (analysis (step ev st)).
Proof.
  destruct ev as [|o uuid ok|id ok|ok]; simpl; try done.
  intros _. destruct o as [| | |[]]; split; simpl; try done; by intros [??].
Qed.

(** X12. At every moment of the life of a page the request hook holds nothing
    while loading and never a response together with an error; so while a
    request runs the results area shows the spinner and the history is
    hidden, and a result card is only shown for a response that arrived. *)
Theorem page_views_follow_request (evs : list Event) :
  let st := run evs initialHome in
  coherent (analysis st) ∧
  (loading (analysis st) = true →
     resultsArea st = Some Spinner ∧ historyVisible st = false) ∧
  (∀ d, resultsArea st = Some (ResultCard d) →
        data (analysis st) = Some d ∧ loading (analysis st) = false) ∧
  (resultsArea st = None ↔ Forall (λ ev, ev ≠ Submit) evs).
Proof.
  cbv zeta.
  assert (Hinv : ∀ evs st,
            coherent (analysis st) ∧
              (loading (analysis st) = true → hasSearched st = true) →
            coherent (analysis (run evs st)) ∧
              (loading (analysis (run evs st)) = true →
               hasSearched (run evs st) = true)).
  { clear evs. induction evs as [|ev evs IH]; intros st [Hc Hl]; [done|].
    simpl. apply IH. split; [by apply step_coherent|].
    destruct ev as [|o uuid ok|id ok|ok]; simpl; try done.
    by destruct o as [| | |[]]. }
  assert (Hsearched : ∀ evs st,
            hasSearched (run evs st) = false →
            hasSearched st = false ∧ Forall (λ ev, ev ≠ Submit) evs).
  { clear. induction evs as [|ev evs IH]; intros st Hs; [done|].
    simpl in Hs. destruct (IH _ Hs) as [Hs' Hall].
    destruct ev as [|o uuid ok|id ok|ok]; simpl in Hs'; try done;
      (split; [done|constructor; done]). }
  destruct (Hinv evs initialHome) as [[Hload Hdata] Hhs]; [done|].
  split; [done|]. split; [|split].
  - intros Hl. unfold resultsArea, historyVisible, searchResultsView.
    by rewrite (Hhs Hl), Hl.
  - unfold resultsArea, searchResultsView. intros d.
    destruct (hasSearched (run evs initialHome)); [|done].
    destruct (loading (analysis (run evs initialHome))); [done|].
    destruct (error (analysis (run evs initialHome))) as [m|];
      [case_decide; [|done]|];
      destruct (data (analysis (run evs initialHome))); try done;
      by intros [= ->].
  - split.
    + unfold resultsArea. intros Hs.
      destruct (hasSearched (run evs initialHome)) eqn:Hh; [done|].
      by destruct (Hsearched _ _ Hh).
    + intros Hall. unfold resultsArea.
      replace (hasSearched (run evs initialHome)) with false; [done|].
      symmetry.
      assert (Hkeep : ∀ st, hasSearched st = false →
                hasSearched (run evs st) = false); [|by apply Hkeep].
      clear -Hall.
      induction Hall as [|ev evs Hev _ IH]; intros st Hs; [done|].
      simpl. apply IH. destruct ev; simpl; done.
Qed.

(** X13. The item of the history and the result card agree on the colour of a
    score exactly when the score is not negative (the card has a fourth
    colour for negative scores, the item paints them green); in both
    components the icon goes with the colour. *)
Theorem item_and_card_colours (s : Q) :
  (itemScoreColor s = getScoreColor s ↔ (0 <= s)%Q) ∧
  ((s < 0)%Q → itemScoreColor s = Green ∧ getScoreColor s = Blue) ∧
  (getScoreIcon s = Siren ↔ getScoreColor s = Red) ∧
  (getScoreIcon s = Warning ↔ getScoreColor s = Yellow) ∧
  (getScoreIcon s = Check ↔ getScoreColor s = Green) ∧
  (getScoreIcon s = Shield ↔ getScoreColor s = Blue) ∧
  (itemScoreIcon s = Siren ↔ itemScoreColor s = Red) ∧
  (itemScoreIcon s = Warning ↔ itemScoreColor s = Yellow) ∧
  (itemScoreIcon s = Check ↔ itemScoreColor s = Green).
Proof.
  unfold itemScoreColor, getScoreColor, getScoreIcon, itemScoreIcon.
  destruct (Qle_bool 70 s) eqn:H70; destruct (Qle_bool 40 s) eqn:H40;
    destruct (Qle_bool 0 s) eqn:H0;
    rewrite ?Qle_bool_iff, ?Qle_bool_false in *;
    repeat split; intros; try discriminate; try done; try lra.
Qed.

(** X14. The statistics line of the history counts the items by the colour of
    their badge, and every item is counted once. *)
Theorem history_stats_match_badges (entries : list HistoryEntry) :
  highCount entries
    = length (filter (λ e, itemScoreColor (he_score e) = Red) entries) ∧
  mediumCount entries
    = length (filter (λ e, itemScoreColor (he_score e) = Yellow) entries) ∧
  safeCount entries
    = length (filter (λ e, itemScoreColor (he_score e) = Green) entries) ∧
  highCount entries + mediumCount entries + safeCount entries
    = length entries.
Proof.
  split; [|split; [|split]]; [| | |apply history_stats_partition];
    unfold highCount, mediumCount, safeCount; f_equal;
    apply list_filter_iff; intros e; unfold itemScoreColor;
    destruct (Qle_bool 70 (he_score e)) eqn:H70;
    destruct (Qle_bool 40 (he_score e)) eqn:H40;
    split; intros Hp; try done; try tauto; try (by destruct Hp);
    exfalso; apply Qle_bool_iff in H70; apply Qle_bool_false in H40; lra.
Qed.

(** *** Texts of the history item *)

(** X15. [truncateUrl] returns a URL of at most [maxLength] code units as
    it is and cuts a longer one to its first [maxLength] code units
    followed by three dots: the text never exceeds [maxLength + 3], it
    always starts like the URL, and for a URL one or two code units over
    the limit the text is longer than the URL. *)
Theorem truncateUrl_bounds (url : CodeUnits) (maxLength : nat) :
  length (truncateUrl url maxLength) ≤ maxLength + 3 ∧
  (length url ≤ maxLength → truncateUrl url maxLength = url) ∧
  (maxLength < length url →
     truncateUrl url maxLength = take maxLength url ++ DOTS ∧
     length (truncateUrl url maxLength) = maxLength + 3) ∧
  take maxLength (truncateUrl url maxLength) = take maxLength url ∧
  (length url < length (truncateUrl url maxLength)
     ↔ maxLength < length url < maxLength + 3).
Proof.
  unfold truncateUrl.
  destruct (length url <=? maxLength) eqn:Hle.
  - apply Nat.leb_le in Hle. repeat split; try done; try lia.
  - apply Nat.leb_gt in Hle.
    assert (Hlen : length (take maxLength url ++ DOTS) = maxLength + 3).
    { rewrite length_app, length_take. simpl. lia. }
    rewrite Hlen. repeat split; try lia.
    rewrite take_app_le by (rewrite length_take; lia).
    rewrite take_take. f_equal. lia.
Qed.

Lemma formatDate_cases (t now : Z) :
  let age := (now - t)%Z in
  ((age < 60000)%Z ∧ formatDate (Some t) now = Ahora) ∨
  ((60000 ≤ age < 3600000)%Z ∧ (1 ≤ age / 60000 ≤ 59)%Z ∧
     formatDate (Some t) now = HaceMinutos (age / 60000)) ∨
  ((3600000 ≤ age < 86400000)%Z ∧ (1 ≤ age / 3600000 ≤ 23)%Z ∧
     formatDate (Some t) now = HaceHoras (age / 3600000)) ∨
  ((86400000 ≤ age < 604800000)%Z ∧ (1 ≤ age / 86400000 ≤ 6)%Z ∧
     formatDate (Some t) now = HaceDias (age / 86400000)) ∨
  ((604800000 ≤ age)%Z ∧ formatDate (Some t) now = FechaLocal).
Proof.
  intros age. unfold formatDate. fold age.
  destruct (age / 60000 <? 1)%Z eqn:H1;
    [|destruct (age / 60000 <? 60)%Z eqn:H2;
      [|destruct (age / 3600000 <? 24)%Z eqn:H3;
        [|destruct (age / 86400000 <? 7)%Z eqn:H4]]];
    rewrite ?Z.ltb_lt, ?Z.ltb_ge in *.
  - left. split; [|done]. Z.div_mod_to_equations. lia.
  - right. left. repeat split; try done; Z.div_mod_to_equations; lia.
  - right. right. left. repeat split; try done; Z.div_mod_to_equations; lia.
  - do 3 right. left. repeat split; try done; Z.div_mod_to_equations; lia.
  - do 4 right. split; [|done]. Z.div_mod_to_equations. lia.
Qed.

(** X16. [formatDate] splits the age of an entry into five ranges: under a
    minute (future timestamps included), minutes from 1 to 59, hours from
    1 to 23, days from 1 to 6, and the locale date from a week on or when
    the timestamp is not a date. *)
Theorem formatDate_ranges (t now : Z) :
  let age := (now - t)%Z in
  formatDate None now = FechaLocal ∧
  (formatDate (Some t) now = Ahora ↔ (age < 60000)%Z) ∧
  (∀ n, formatDate (Some t) now = HaceMinutos n ↔
        (60000 ≤ age < 3600000)%Z ∧ n = (age / 60000)%Z) ∧
  (∀ n, formatDate (Some t) now = HaceHoras n ↔
        (3600000 ≤ age < 86400000)%Z ∧ n = (age / 3600000)%Z) ∧
  (∀ n, formatDate (Some t) now = HaceDias n ↔
        (86400000 ≤ age < 604800000)%Z ∧ n = (age / 86400000)%Z) ∧
  (formatDate (Some t) now = FechaLocal ↔ (604800000 ≤ age)%Z) ∧
  (∀ n, formatDate (Some t) now = HaceMinutos n → (1 ≤ n ≤ 59)%Z) ∧
  (∀ n, formatDate (Some t) now = HaceHoras n → (1 ≤ n ≤ 23)%Z) ∧
  (∀ n, formatDate (Some t) now = HaceDias n → (1 ≤ n ≤ 6)%Z).
Proof.
  cbv zeta. split; [done|].
  destruct (formatDate_cases t now)
    as [[Hr ->]|[(Hr & Hb & ->)|[(Hr & Hb & ->)|[(Hr & Hb & ->)|[Hr ->]]]]];
    split_and!; try intros n; try split; intros; destruct_and?;
    simplify_eq; try done; try lia.
Qed.

(** *** Names and labels *)

(** X17. [displayName] replaces every underscore by a space and nothing else:
    the length is kept, no underscore is left, a name without underscore
    is unchanged, and applying it twice is applying it once. *)
Theorem displayName_spaces (name : string) :
  String.length (displayName name) = String.length name ∧
  ("_"%char ∉ String.list_ascii_of_string (displayName name)) ∧
  (("_"%char ∉ String.list_ascii_of_string name) → displayName name = name) ∧
  displayName (displayName name) = displayName name.
Proof.
  assert (Hno : ("_"%char ∉ String.list_ascii_of_string (displayName name))).
  { induction name as [|c name IH]; simpl; [apply not_elem_of_nil|].
    apply not_elem_of_cons. split; [|done].
    destruct (Ascii.eqb c "_") eqn:Hc; [done|].
    apply Ascii.eqb_neq in Hc. congruence. }
  assert (Hid : ∀ s, ("_"%char ∉ String.list_ascii_of_string s) → displayName s = s).
  { induction s as [|c s IH]; simpl; [done|].
    rewrite not_elem_of_cons. intros [Hc Hs].
    rewrite IH by done. f_equal.
    destruct (Ascii.eqb c "_") eqn:Hcb; [|done].
    apply Ascii.eqb_eq in Hcb. congruence. }
  split; [|split; [exact Hno|split]].
  - clear Hno. induction name as [|c name IH]; simpl; [done|]. by rewrite IH.
  - apply Hid.
  - apply Hid. exact Hno.
Qed.

(** X18. The history keeps the first three labels of a response and the item
    previews the first two: the entry's labels are a prefix of the
    response's, and the preview is absent exactly when the response has no
    label. *)
Theorem labels_kept_and_previewed (response : AnalysisResponse)
    (uuid : string) :
  let entry := newEntry response uuid in
  he_labels entry `prefix_of` labels response ∧
  length (he_labels entry) = min 3 (length (labels response)) ∧
  (labelsPreview entry = None ↔ labels response = []) ∧
  (labels response ≠ [] →
     labelsPreview entry = Some (take 2 (labels response))).
Proof.
  cbv zeta. unfold newEntry. cbn [he_labels].
  split; [apply prefix_take|]. split; [apply length_take|].
  unfold labelsPreview. cbn [he_labels].
  destruct (labels response) as [|a [|b [|c l]]]; simpl; split; done.
Qed.

End ViewFacts.

(* ===================================================================== *)
(** ** The further properties at work *)
(* ===================================================================== *)

Module MoreInstances.
Import Api UseHistory UseAnalyze Rendering Home Views.
Import UseHistoryFacts HomeFacts HistoryMore ViewFacts.

Definition letter (n : nat) : string :=
  String (Ascii.ascii_of_nat (97 + n)) EmptyString.

(** Twenty entries, the newest first: [a], [b], ... [t]. *)
Definition fullHistory : list HistoryEntry :=
  (λ n, sampleEntry (letter n)
          (String.append "https://" (String.append (letter n) ".test")))
    <$> seq 0 20.

Definition fullState : HookState := mkHookState fullHistory (Some fullHistory).

Lemma fullHistory_inv : history_inv (history fullState).
Proof.
  split; [by vm_compute|].
  apply (bool_decide_unpack _). by vm_compute.
Defined.

Example full_history_drops_the_oldest :
  he_id <$> history (addEntry true "u" (sampleResponse "https://new.test" false)
                       fullState)
  = "550e8400" :: (letter <$> seq 0 19).
Proof. by vm_compute. Qed.

Example url_of_52_code_units_is_shown_longer :
  let u := asciiUnits "https://example.com/a/very/long/path/of/52/chars/xyz" in
  length u = 52 ∧
  truncateUrl u DEFAULT_MAX_LENGTH
    = asciiUnits "https://example.com/a/very/long/path/of/52/chars/x..." ∧
  length (truncateUrl u DEFAULT_MAX_LENGTH) = 53.
Proof. by vm_compute. Qed.

(** Fifty code units with a letter outside ASCII (233 is the one code unit
    of e acute): the URL is within the limit and shown as it is. *)
Example url_of_50_code_units_with_accent_is_kept :
  let u := asciiUnits "https://example.com/caf" ++ [233%N]
           ++ asciiUnits "/menu/del/dia/especial/hoy" in
  length u = 50 ∧ truncateUrl u DEFAULT_MAX_LENGTH = u.
Proof. by vm_compute. Qed.

Example formatDate_samples :
  formatDate (Some 1000000%Z) 1059999%Z = Ahora ∧
  formatDate (Some 1000000%Z) 1060000%Z = HaceMinutos 1%Z ∧
  formatDate (Some 1000000%Z) 4599999%Z = HaceMinutos 59%Z ∧
  formatDate (Some 1000000%Z) 4600000%Z = HaceHoras 1%Z ∧
  formatDate (Some 1000000%Z) 605799999%Z = HaceDias 6%Z ∧
  formatDate (Some 1000000%Z) 605800000%Z = FechaLocal ∧
  formatDate (Some 1000000%Z) 0%Z = Ahora.
Proof. by vm_compute. Qed.

Example displayName_sample : displayName "url_heuristics_v2" = "url heuristics v2".
Proof. reflexivity. Qed.

Lemma known_url : url (sampleResponse "https://b.test" false)
                    ∈ he_url <$> history sampleState.
Proof. simpl. apply list_elem_of_further, list_elem_of_here. Defined.

Lemma addEntry_known_url_moves_to_front_witness :
  history_inv (history sampleState) ∧
  url (sampleResponse "https://b.test" false) ∈ he_url <$> history sampleState ∧
  history (addEntry true "u" (sampleResponse "https://b.test" false) sampleState)
    = newEntry (sampleResponse "https://b.test" false) "u"
      :: filter (λ e, he_url e ≠ url (sampleResponse "https://b.test" false))
           (history sampleState) ∧
  length (history (addEntry true "u" (sampleResponse "https://b.test" false)
                     sampleState))
    = length (history sampleState).
Proof.
  split; [exact sampleState_inv|]. split; [exact known_url|].
  exact (addEntry_known_url_moves_to_front true "u"
           (sampleResponse "https://b.test" false) sampleState
           sampleState_inv known_url).
Defined.

Lemma new_url : url (sampleResponse "https://new.test" false)
                  ∉ he_url <$> history fullState.
Proof. apply (bool_decide_unpack _). by vm_compute. Defined.

Lemma addEntry_new_url_evicts_oldest_witness :
  (url (sampleResponse "https://new.test" false) ∉ he_url <$> history fullState) ∧
  (length (history fullState) < MAX_HISTORY_ITEMS →
     history (addEntry true "u" (sampleResponse "https://new.test" false) fullState)
       = newEntry (sampleResponse "https://new.test" false) "u"
         :: history fullState) ∧
  (∀ older oldest, history fullState = older ++ [oldest] →
     length (history fullState) = MAX_HISTORY_ITEMS →
     history (addEntry true "u" (sampleResponse "https://new.test" false) fullState)
       = newEntry (sampleResponse "https://new.test" false) "u" :: older).
Proof.
  split; [exact new_url|].
  exact (addEntry_new_url_evicts_oldest true "u"
           (sampleResponse "https://new.test" false) fullState new_url).
Defined.

(** A session with two fresh responses, a cached one, a failure, a removal
    and a clearing in the middle. *)
Definition busySession : list Event :=
  [ Submit; Settle (Fulfilled (sampleResponse "https://a.test" false)) "u1" true;
    Submit; Settle (Fulfilled (sampleResponse "https://a.test" true)) "u2" false;
    Submit; Settle (Rejected (mkApiError 422 "" "validation_error")) "u3" false;
    Clear true;
    Submit; Settle (Fulfilled (sampleResponse "https://b.test" false)) "u4" true;
    Submit; Settle (Fulfilled (sampleResponse "https://c.test" false)) "u5" true;
    Remove "550e8400" true;
    Submit; Settle (Fulfilled (sampleResponse "https://d.test" false)) "u6" true ].

Lemma busySession_ok : Forall storageOk busySession.
Proof. repeat constructor; simpl; done. Defined.

Lemma initial_synced : synced (hist initialHome).
Proof. by right. Defined.

Lemma history_survives_reload_witness :
  Forall storageOk busySession ∧ synced (hist initialHome) ∧
  history (pageLoad (stored (hist (run busySession initialHome))))
  = history (hist (run busySession initialHome)).
Proof.
  split; [exact busySession_ok|]. split; [exact initial_synced|].
  exact (history_survives_reload busySession initialHome
           busySession_ok initial_synced).
Defined.

Lemma fullState_synced : synced fullState.
Proof. by left. Defined.

Lemma failed_write_lost_on_reload_witness :
  synced fullState ∧
  history (pageLoad (stored (addEntry false "u"
             (sampleResponse "https://new.test" false) fullState)))
    = history fullState ∧
  history (pageLoad (stored (removeEntry false "a" fullState)))
    = history fullState ∧
  history (pageLoad (stored (clearHistory false fullState)))
    = history fullState ∧
  head (history (addEntry false "u" (sampleResponse "https://new.test" false)
                   fullState))
    = Some (newEntry (sampleResponse "https://new.test" false) "u") ∧
  history (clearHistory false fullState) = [].
Proof.
  split; [exact fullState_synced|].
  exact (failed_write_lost_on_reload "u" "a"
           (sampleResponse "https://new.test" false) fullState fullState_synced).
Defined.

Definition fullPage : HomeState := mkHomeState false initialState fullState.

Lemma page_keeps_history_inv_witness :
  history_inv (history (hist fullPage)) ∧
  history_inv (history (hist (run busySession fullPage))) ∧
  length (history (hist (run busySession fullPage))) ≤ 20.
Proof.
  split; [exact fullHistory_inv|].
  exact (page_keeps_history_inv busySession fullPage fullHistory_inv).
Defined.

Lemma fresh_response_recorded_once_in_front_witness :
  cached (sampleResponse "https://b.test" false) = false ∧
  let st' := step (Settle (Fulfilled (sampleResponse "https://b.test" false))
                     "u" true) fullPage in
  head (history (hist st'))
    = Some (newEntry (sampleResponse "https://b.test" false) "u") ∧
  filter (λ e, he_url e = url (sampleResponse "https://b.test" false))
    (history (hist st'))
    = [newEntry (sampleResponse "https://b.test" false) "u"] ∧
  length (history (hist st')) ≤ MAX_HISTORY_ITEMS.
Proof.
  split; [reflexivity|].
  exact (fresh_response_recorded_once_in_front
           (sampleResponse "https://b.test" false) "u" true fullPage eq_refl).
Defined.

Definition quietSession : list Event :=
  [ Submit; Settle (Fulfilled (sampleResponse "https://a.test" true)) "u1" true;
    Submit; Settle (Rejected (mkApiError 422 "Invalid URL" "validation_error"))
              "u2" true;
    Submit; Settle (Thrown (Some "Failed to fetch")) "u3" false;
    Submit ].

Lemma quietSession_quiet : Forall quiet quietSession.
Proof. repeat constructor. Defined.

Lemma quiet_events_keep_history_witness :
  Forall quiet quietSession ∧ hist (run quietSession fullPage) = hist fullPage.
Proof.
  split; [exact quietSession_quiet|].
  exact (quiet_events_keep_history quietSession fullPage quietSession_quiet).
Defined.

End MoreInstances.
